(** * Elevator simulator: the motion-and-door controller of [main.js]

    A shallow embedding of the controller part of [src/main.js]: the
    [state] object, the [doorTimer] handle, the three [async] routines
    [openDoors], [closeDoors] and [goToFloor], and the browser's timer
    queue on which they suspend.

    An [async] function runs synchronously up to its first [await] on a
    pending promise.  The only pending promises of the program are those
    of [sleep], that is [setTimeout] callbacks, so every suspended routine
    is a pending timer whose callback is the rest of the routine.  The
    callbacks are defunctionalised ([callback]).  Awaiting a promise that
    is already resolved resumes in a microtask of the same macrotask,
    before any other timer or click handler can run: this is modelled as a
    plain call.

    DOM updates do not feed back into the controller, except for the
    [disabled] flag of the buttons, which decides which clicks reach the
    handlers.  They are recorded in a log (newest entry first) together
    with the virtual time at which they happen. *)

From Stdlib Require Import String Ascii DecimalString DecimalZ.
From Stdlib Require Import ZArith List Bool Lia PeanoNat.
Import ListNotations.
Open Scope Z_scope.

(** ** Configuration *)

(** Read from CSS custom properties: [--floors] and [--door-time]. *)
Record config := mkConfig { floors : Z; doorTime : Z }.

(** [const SPEED_PER_FLOOR = 900]. *)
Definition SPEED_PER_FLOOR : Z := 900.

(** [let doorAutoCloseMs = 5000], never reassigned. *)
Definition doorAutoCloseMs : Z := 5000.

(** ** Data *)

(** [state.doors]: ['open' | 'closed']. *)
Inductive doorState := DoorOpen | DoorClosed.

(** The [state] object. [direction] is -1, 0 or +1; [moving] is the
    admission flag. *)
Record carState := mkCar {
  current   : Z;
  direction : Z;
  moving    : bool;
  doors     : doorState;
  selected  : Z
}.

(** Who awaits the promise of [closeDoors]: nobody (button click, timer
    callback), or [goToFloor(target)] at line 284. *)
Inductive awaiter :=
| Detached
| AwaitedByGoToFloor (target : Z).

(** The callbacks handed to [setTimeout]. *)
Inductive callback :=
| AutoClose                          (* [if (!state.moving) closeDoors()] *)
| OpenSettled                        (* rest of [openDoors] after its sleep *)
| CloseSettled (a : awaiter)         (* rest of [closeDoors] after its sleep *)
| HallSettled (f : Z)                (* [closeHallDoors]: remove class "closing" *)
| TravelTick (steps step temp i : Z) (* rest of the loop of [goToFloor] *).

Record timer := mkTimer { tid : nat; due : Z; cb : callback }.

(** DOM effects, as seen by an observer. *)
Inductive event :=
| RefreshButtons
| UpdateHeader (floor dir : Z)
| OpenHallDoors (f : Z)
| CloseHallDoors (f : Z)
| CarDoorsOpening
| CarDoorsClosing
| CarDoorsSettled
| HallDoorsSettled (f : Z)
| CarTransition (duration target : Z).

(** The [disabled] flags of the six floor buttons, in creation order, and
    of the two door buttons; [activeFloor] is the value of [active]
    (line 204) that the last [refreshButtons] compared the buttons with. *)
Record panelState := mkPanel {
  floorDisabled : list bool;
  openDisabled  : bool;
  closeDisabled : bool;
  activeFloor   : Z
}.

Record world := mkWorld {
  state     : carState;
  doorTimer : option nat;
  clock     : Z;
  nextId    : nat;
  timers    : list timer;        (* pending timers, in creation order *)
  panel     : panelState;
  log       : list (Z * event)
}.

(** *** Field updates *)

Definition set_current (v : Z) (s : carState) : carState :=
  mkCar v (direction s) (moving s) (doors s) (selected s).
Definition set_direction (v : Z) (s : carState) : carState :=
  mkCar (current s) v (moving s) (doors s) (selected s).
Definition set_moving (v : bool) (s : carState) : carState :=
  mkCar (current s) (direction s) v (doors s) (selected s).
Definition set_doors (v : doorState) (s : carState) : carState :=
  mkCar (current s) (direction s) (moving s) v (selected s).
Definition set_selected (v : Z) (s : carState) : carState :=
  mkCar (current s) (direction s) (moving s) (doors s) v.

Definition upd_state (f : carState -> carState) (w : world) : world :=
  mkWorld (f (state w)) (doorTimer w) (clock w) (nextId w) (timers w)
          (panel w) (log w).
Definition set_doorTimer (v : option nat) (w : world) : world :=
  mkWorld (state w) v (clock w) (nextId w) (timers w) (panel w) (log w).
Definition set_clock (v : Z) (w : world) : world :=
  mkWorld (state w) (doorTimer w) v (nextId w) (timers w) (panel w) (log w).
Definition set_timers (v : list timer) (w : world) : world :=
  mkWorld (state w) (doorTimer w) (clock w) (nextId w) v (panel w) (log w).
Definition set_panel (v : panelState) (w : world) : world :=
  mkWorld (state w) (doorTimer w) (clock w) (nextId w) (timers w) v (log w).
Definition emit (e : event) (w : world) : world :=
  mkWorld (state w) (doorTimer w) (clock w) (nextId w) (timers w) (panel w)
          ((clock w, e) :: log w).

(** ** The timer queue *)

(** [setTimeout(cb, ms)]: a negative delay counts as 0.  The new handle
    is the old [nextId]. *)
Definition setTimeout (c : callback) (ms : Z) (w : world) : world :=
  mkWorld (state w) (doorTimer w) (clock w) (S (nextId w))
          (timers w ++ [mkTimer (nextId w) (clock w + Z.max 0 ms) c])
          (panel w) (log w).

Definition cancel (id : nat) (l : list timer) : list timer :=
  filter (fun t => negb (Nat.eqb (tid t) id)) l.

(** [clearTimeout(id)]: a handle that is no longer pending is ignored. *)
Definition clearTimeout (id : nat) (w : world) : world :=
  set_timers (cancel id (timers w)) w.

(** The timer the event loop runs next: the earliest due, the earliest
    created among equals. *)
Fixpoint nextTimer (l : list timer) : option timer :=
  match l with
  | [] => None
  | t :: r =>
      match nextTimer r with
      | None => Some t
      | Some u => if due t <=? due u then Some t else Some u
      end
  end.

(** ** Scene and control panel *)

(** [hallEls[f]] exists for [0 <= f < floors]. *)
Definition hasHall (cfg : config) (f : Z) : bool :=
  (0 <=? f) && (f <? floors cfg).

(** [buildControls]: the floors of the six floor buttons, in creation
    order: rows [max, max-1, max-2], [max-3, max-4] and G. *)
Definition buttonFloors (cfg : config) : list Z :=
  let max := floors cfg - 1 in
  [max; max - 1; max - 2; max - 3; max - 4; 0].

(** Button [j] is the one [floorBtnEls] holds for its floor: the floor is
    in the range [refreshButtons] visits and no later button took the
    slot ([floorBtnEls[f] = b] overwrites). *)
Definition tracked (cfg : config) (j : nat) : bool :=
  match nth_error (buttonFloors cfg) j with
  | None => false
  | Some f =>
      hasHall cfg f &&
      negb (existsb (Z.eqb f) (skipn (S j) (buttonFloors cfg)))
  end.

Fixpoint refreshFlags (cfg : config) (s : carState) (j : nat)
         (fs : list Z) (old : list bool) : list bool :=
  match fs, old with
  | f :: fs', o :: old' =>
      (if tracked cfg j then moving s || (f =? current s) else o)
        :: refreshFlags cfg s (S j) fs' old'
  | _, _ => old
  end.

Definition doorIsOpen (d : doorState) : bool :=
  match d with DoorOpen => true | DoorClosed => false end.

(** [refreshButtons] (lines 203-214). *)
Definition refreshButtons (cfg : config) (w : world) : world :=
  let s := state w in
  emit RefreshButtons
    (set_panel
       (mkPanel (refreshFlags cfg s 0 (buttonFloors cfg)
                              (floorDisabled (panel w)))
                (moving s || doorIsOpen (doors s))
                (moving s || negb (doorIsOpen (doors s)))
                (selected s))
       w).

(** [updateHeader] (lines 325-336): title, label and direction icons. *)
Definition updateHeader (w : world) : world :=
  emit (UpdateHeader (current (state w)) (direction (state w))) w.

(** [openHallDoors(f)] (lines 118-125). *)
Definition openHallDoors (cfg : config) (f : Z) (w : world) : world :=
  if hasHall cfg f then emit (OpenHallDoors f) w else w.

(** [closeHallDoors(f)] (lines 127-137): the class "closing" is removed
    by a timer of its own. *)
Definition closeHallDoors (cfg : config) (f : Z) (w : world) : world :=
  if hasHall cfg f
  then setTimeout (HallSettled f) (doorTime cfg) (emit (CloseHallDoors f) w)
  else w.

(** ** Motion and doors *)

(** [clearDoorTimer] (lines 221-226). *)
Definition clearDoorTimer (w : world) : world :=
  match doorTimer w with
  | Some id => set_doorTimer None (clearTimeout id w)
  | None => w
  end.

(** [startDoorAutoCloseTimer] (lines 227-232), always called with the
    default [ms = doorAutoCloseMs]. *)
Definition startDoorAutoCloseTimer (w : world) : world :=
  let w1 := clearDoorTimer w in
  set_doorTimer (Some (nextId w1)) (setTimeout AutoClose doorAutoCloseMs w1).

(** [openDoors] (lines 235-250), up to its [await sleep].  No caller has
    anything left to do once its promise resolves ([goToFloor] awaits it
    as its last statement), so the callback needs no awaiter. *)
Definition openDoors (cfg : config) (w : world) : world :=
  match doors (state w) with
  | DoorOpen => refreshButtons cfg (startDoorAutoCloseTimer w)
  | DoorClosed =>
      let w1 := openHallDoors cfg (current (state w)) w in
      let w2 := emit CarDoorsOpening w1 in
      let w3 := upd_state (set_doors DoorOpen) w2 in
      let w4 := refreshButtons cfg w3 in
      setTimeout OpenSettled (doorTime cfg) w4
  end.

(** The end of [goToFloor] (lines 309-313). *)
Definition arrive (cfg : config) (w : world) : world :=
  let w1 := upd_state (set_moving false) w in
  let w2 := upd_state (set_direction 0) w1 in
  let w3 := upd_state (set_selected (current (state w2))) w2 in
  openDoors cfg (refreshButtons cfg w3).

(** The [for] loop of [goToFloor] (lines 302-307), entered at its test
    with the locals [steps], [step], [temp] and [i]. *)
Definition travelLoop (cfg : config) (steps step temp i : Z) (w : world)
  : world :=
  if i <? steps
  then setTimeout (TravelTick steps step temp i) SPEED_PER_FLOOR w
  else arrive cfg w.

(** The loop body after [await sleep(SPEED_PER_FLOOR)], then [i++] and
    the test again. *)
Definition travelTick (cfg : config) (steps step temp i : Z) (w : world)
  : world :=
  let temp' := temp + step in
  let w1 := upd_state (set_current temp') w in
  let w2 := updateHeader w1 in
  travelLoop cfg steps step temp' (i + 1) w2.

(** [goToFloor] after [await closeDoors()] (lines 286-302). *)
Definition goToFloor_afterClose (cfg : config) (target : Z) (w : world)
  : world :=
  let steps := Z.abs (target - current (state w)) in
  if steps =? 0 then
    let w1 := upd_state (set_direction 0) w in
    openDoors cfg (updateHeader w1)
  else
    let duration := steps * SPEED_PER_FLOOR in
    let w1 := upd_state (set_moving true) w in
    let w2 := refreshButtons cfg w1 in
    let w3 := emit (CarTransition duration target) w2 in
    let step := direction (state w3) in
    let temp := current (state w3) in
    travelLoop cfg steps step temp 0 w3.

(** The promise of [closeDoors] is resolved: whoever awaits it goes on. *)
Definition resume (cfg : config) (a : awaiter) (w : world) : world :=
  match a with
  | Detached => w
  | AwaitedByGoToFloor target => goToFloor_afterClose cfg target w
  end.

(** [closeDoors] (lines 252-266), up to its [await sleep]; [a] is the
    caller that awaits the result. *)
Definition closeDoors (cfg : config) (a : awaiter) (w : world) : world :=
  let w0 := clearDoorTimer w in
  match doors (state w0) with
  | DoorClosed => resume cfg a (refreshButtons cfg w0)
  | DoorOpen =>
      let w1 := closeHallDoors cfg (current (state w0)) w0 in
      let w2 := emit CarDoorsClosing w1 in
      let w3 := upd_state (set_doors DoorClosed) w2 in
      let w4 := refreshButtons cfg w3 in
      setTimeout (CloseSettled a) (doorTime cfg) w4
  end.

(** [goToFloor] (lines 275-284). *)
Definition goToFloor (cfg : config) (target : Z) (w : world) : world :=
  let w1 := upd_state (set_selected target) w in
  let w2 := refreshButtons cfg w1 in
  if moving (state w2) || (target =? current (state w2)) then w2
  else
    let dir := if current (state w2) <? target then 1 else -1 in
    let w3 := upd_state (set_direction dir) w2 in
    let w4 := updateHeader w3 in
    closeDoors cfg (AwaitedByGoToFloor target) w4.

(** What a timer does when it fires. *)
Definition runCallback (cfg : config) (c : callback) (w : world) : world :=
  match c with
  | AutoClose =>
      if moving (state w) then w else closeDoors cfg Detached w
  | OpenSettled => startDoorAutoCloseTimer w
  | CloseSettled a => resume cfg a (emit CarDoorsSettled w)
  | HallSettled f => emit (HallDoorsSettled f) w
  | TravelTick steps step temp i => travelTick cfg steps step temp i w
  end.

(** ** The event loop *)

(** The initial [state] (lines 60-69), before [init()]. *)
Definition world0 : world :=
  mkWorld (mkCar 0 0 false DoorClosed 0) None 0 1 []
          (mkPanel [false; false; false; false; false; false] false false 0)
          [].

(** [buildControls] ends with [refreshButtons()]. *)
Definition buildControls (cfg : config) (w : world) : world :=
  refreshButtons cfg w.

(** [init()] (lines 350-356). *)
Definition init (cfg : config) : world :=
  openDoors cfg (refreshButtons cfg (updateHeader (buildControls cfg world0))).

(** Direct invocations of the three routines. *)
Inductive call :=
| CallGoToFloor (target : Z)
| CallOpenDoors
| CallCloseDoors.

Inductive button :=
| FloorBtn (j : nat)
| OpenBtn
| CloseBtn.

(** What the environment does next: the event loop runs the next timer,
    or a handler is entered at time [t], by a click or directly. *)
Inductive input :=
| Fire
| Call (t : Z) (c : call)
| Click (t : Z) (b : button).

Definition runCall (cfg : config) (c : call) (w : world) : world :=
  match c with
  | CallGoToFloor target => goToFloor cfg target w
  | CallOpenDoors => openDoors cfg w
  | CallCloseDoors => closeDoors cfg Detached w
  end.

(** A click reaches its listener only on an existing, enabled button. *)
Definition clickTarget (cfg : config) (b : button) (w : world) : option call :=
  match b with
  | FloorBtn j =>
      match nth_error (buttonFloors cfg) j,
            nth_error (floorDisabled (panel w)) j with
      | Some f, Some false => Some (CallGoToFloor f)
      | _, _ => None
      end
  | OpenBtn => if openDisabled (panel w) then None else Some CallOpenDoors
  | CloseBtn => if closeDisabled (panel w) then None else Some CallCloseDoors
  end.

(** Time [t] has come and no pending timer is overdue. *)
Definition canHappenAt (t : Z) (w : world) : bool :=
  (clock w <=? t) && forallb (fun tm => t <=? due tm) (timers w).

(** One turn of the event loop.  [Fire]: the next timer leaves the queue,
    the clock moves to its due time and its callback runs.  [Call] and
    [Click]: the handler runs at time [t]; a click on a disabled button
    is no turn at all. *)
Definition step (cfg : config) (w : world) (i : input) : option world :=
  match i with
  | Fire =>
      match nextTimer (timers w) with
      | None => None
      | Some t =>
          Some (runCallback cfg (cb t)
                  (set_clock (due t) (clearTimeout (tid t) w)))
      end
  | Call t c =>
      if canHappenAt t w then Some (runCall cfg c (set_clock t w)) else None
  | Click t b =>
      if canHappenAt t w then
        match clickTarget cfg b w with
        | Some c => Some (runCall cfg c (set_clock t w))
        | None => None
        end
      else None
  end.

Fixpoint run (cfg : config) (w : world) (ins : list input) : option world :=
  match ins with
  | [] => Some w
  | i :: rest =>
      match step cfg w i with
      | Some w' => run cfg w' rest
      | None => None
      end
  end.

(** Only clicks and timers: what a user of the page can do. *)
Definition isUserInput (i : input) : bool :=
  match i with
  | Call _ _ => false
  | _ => true
  end.

(** The reference configuration: six floors, doors take 700 ms. *)
Definition cfg6 : config := mkConfig 6 700.

(** ** Predicates used by the statements *)

(** Worlds the page can be in: [init()] followed by any inputs. *)
Definition reachable (cfg : config) (w : world) : Prop :=
  exists ins, run cfg (init cfg) ins = Some w.

(** A suspended [goToFloor]: in its door-closing wait or in its loop. *)
Definition isTravel (c : callback) : bool :=
  match c with
  | CloseSettled (AwaitedByGoToFloor _) => true
  | TravelTick _ _ _ _ => true
  | _ => false
  end.

Definition isAutoClose (c : callback) : bool :=
  match c with
  | AutoClose => true
  | _ => false
  end.

Definition travelTimers (w : world) : list timer :=
  filter (fun t => isTravel (cb t)) (timers w).

Definition travelPending (w : world) : Prop :=
  exists t, In t (timers w) /\ isTravel (cb t) = true.

(** Bookkeeping of the timer queue that every reachable world satisfies:
    handles are fresh and distinct, no pending timer is overdue, and the
    pending timer that [doorTimer] names, and only that one, is the
    auto-close timer. *)
Record queueOk (w : world) : Prop := mkQueueOk {
  q_fresh : forall t, In t (timers w) -> (tid t < nextId w)%nat;
  q_handle : forall id, doorTimer w = Some id -> (id < nextId w)%nat;
  q_nodup : NoDup (map tid (timers w));
  q_time : forall t, In t (timers w) -> clock w <= due t;
  q_owner : forall t, In t (timers w) ->
                      (cb t = AutoClose <-> doorTimer w = Some (tid t))
}.

(** The header updates of a log, oldest first, with their times. *)
Fixpoint headerUpdates (l : list (Z * event)) : list (Z * Z) :=
  match l with
  | [] => []
  | (t, UpdateHeader f _) :: r => headerUpdates r ++ [(t, f)]
  | _ :: r => headerUpdates r
  end.

(** The door-open routine ran as the last thing in [w]: either the doors
    were open and the dwell timer was re-armed, or they were opened and
    the settle delay is pending. *)
Definition doorOpenRan (cfg : config) (w : world) : Prop :=
  doors (state w) = DoorOpen /\
  exists t, In t (timers w) /\
            ((cb t = AutoClose /\ due t = clock w + doorAutoCloseMs /\
              doorTimer w = Some (tid t))
             \/ (cb t = OpenSettled /\ due t = clock w + Z.max 0 (doorTime cfg))).

(** No auto-close callback is pending. *)
Definition noAutoClose (w : world) : Prop :=
  forall t, In t (timers w) -> cb t <> AutoClose.

Definition headers (w : world) : list (Z * Z) := headerUpdates (log w).







(** *** Scenarios on the reference configuration *)

(** The car has gone to floor 4 and stands there with open doors at
    t = 6000 ms. *)
Definition toFloor4 : list input :=
  [Fire; Click 1000 (FloorBtn 1)] ++ repeat Fire 7.

(** Two floor buttons pressed 100 ms apart: G at 6100 ms, while the doors
    of that request are still closing, 5 at 6200 ms. *)
Definition twoRequests : list input :=
  toFloor4 ++ [Click 6100 (FloorBtn 5); Click 6200 (FloorBtn 0)].

(** Floor 3 is requested at 1000 ms, Open is pressed at 1100 ms, and the
    door-closing wait of the request ends at 1700 ms. *)
Definition openWhileClosing : list input :=
  [Fire; Click 1000 (FloorBtn 2); Click 1100 OpenBtn; Fire; Fire].

(** Floor 3 is requested at 1000 ms with the doors open. *)
Definition requestWithOpenDoors : list input :=
  [Fire; Click 1000 (FloorBtn 2)].

(** The doors have closed by themselves (dwell timer at 5700 ms, closed
    and settled at 6400 ms); the car is idle at floor 0. *)
Definition idleClosed : list input := repeat Fire 4.

(** Close is pressed at 100 ms, while the doors that [init()] opened are
    still settling (until 700 ms); the doors have closed and settled by
    800 ms. *)
Definition closeDuringSettle : list input :=
  Click 100 CloseBtn :: repeat Fire 3.

(** Floor 5 is requested at 100 ms, in the same settling time; the car
    arrives at 5300 ms and opens its doors. *)
Definition requestDuringSettle : list input :=
  Click 100 (FloorBtn 0) :: repeat Fire 8.


(** ** The rest of the page *)




(** [setActiveLabel(floor)] (lines 111-115): the class "active" of the
    labels, one per floor, in document order. *)
Definition setActiveLabel (cfg : config) (floor : Z) : list bool :=
  map (fun i => Z.of_nat i =? floor) (seq 0 (Z.to_nat (floors cfg))).

(** [Number.MAX_SAFE_INTEGER], 2^53 - 1, and [Number.isSafeInteger]: the
    integers that a JS number holds exactly, together with both
    neighbours. *)
Definition MAX_SAFE_INTEGER : Z := 9007199254740991.

Definition isSafeInteger (f : Z) : bool := Z.abs f <=? MAX_SAFE_INTEGER.

(** The decimal digits of an integer, with a minus sign when negative. *)
Definition digits (f : Z) : string := NilZero.string_of_int (Z.to_int f).

(** The text that the template literal of line 79 gives for the number
    [f].  A safe integer prints as its decimal digits.  Beyond, a JS
    number is a double that no longer stands for one integer, prints
    rounded and, from 1e21 on, in exponent form: such numbers are outside
    this embedding, and the result is [None]. *)
Definition numberText (f : Z) : option string :=
  if isSafeInteger f then Some (digits f) else None.

(** [floorName] (lines 74-80). *)
Definition floorName (f : Z) : option string :=
  if f =? 0 then Some "Ground Floor"%string
  else if f =? 1 then Some "1st Floor"%string
  else if f =? 2 then Some "2nd Floor"%string
  else if f =? 3 then Some "3rd Floor"%string
  else option_map (fun s => (s ++ "th Floor")%string) (numberText f).

(** Button [j] carries the class "active".  Line 210 toggles it on the
    buttons that [floorBtnEls] holds, according to their floor; the other
    buttons are created without it (lines 156-157, 168-169) and are never
    visited. *)
Definition highlighted (cfg : config) (w : world) (j : nat) : bool :=
  match nth_error (buttonFloors cfg) j with
  | Some f => tracked cfg j && (f =? activeFloor (panel w))
  | None => false
  end.

(** *** What is pending *)

Definition isTick (c : callback) : bool :=
  match c with
  | TravelTick _ _ _ _ => true
  | _ => false
  end.

(** Callbacks that will look at open doors again: the settle of
    [openDoors] arms the dwell timer, the dwell timer closes, and a
    travel sequence ends in [openDoors]. *)
Definition keepsDoors (c : callback) : bool :=
  match c with
  | OpenSettled => true
  | AutoClose => true
  | _ => isTravel c
  end.

(** Travel sequences that will still write [selected]: a floor loop, or
    a request for a floor other than [cur] waiting for its doors. *)
Definition servesOther (cur : Z) (c : callback) : bool :=
  match c with
  | TravelTick _ _ _ _ => true
  | CloseSettled (AwaitedByGoToFloor target) => negb (target =? cur)
  | _ => false
  end.

Definition pending (P : callback -> bool) (w : world) : Prop :=
  exists t, In t (timers w) /\ P (cb t) = true.

(** A [goToFloor] waiting at line 284 for its doors to close. *)
Definition awaitsDoors (c : callback) : bool :=
  match c with
  | CloseSettled (AwaitedByGoToFloor _) => true
  | _ => false
  end.

(** A direction is shown only under the flag [moving] or while a request
    waits for its doors. *)
Definition directionOk (w : world) : Prop :=
  direction (state w) <> 0 ->
  moving (state w) = true \/ pending awaitsDoors w.

(** Only doors that settle after closing are pending, and no dwell timer
    is armed. *)
Definition settling (w : world) : Prop :=
  doorTimer w = None /\
  forall u, In u (timers w) ->
            cb u = CloseSettled Detached \/ exists f, cb u = HallSettled f.

(** Nothing is pending: no timer, hence no suspended routine. *)
Definition atRest (w : world) : Prop := timers w = [].

(** Every timer of [w] that is not the dwell timer is pending in [w']. *)
Definition keeps (w w' : world) : Prop :=
  forall t, In t (timers w) -> cb t <> AutoClose -> In t (timers w').

(** *** The panel against the state *)

(** The door buttons and the highlight are as [refreshButtons] would set
    them now. *)
Definition doorButtonsOk (w : world) : Prop :=
  openDisabled (panel w)
  = moving (state w) || doorIsOpen (doors (state w)) /\
  closeDisabled (panel w)
  = moving (state w) || negb (doorIsOpen (doors (state w))) /\
  activeFloor (panel w) = selected (state w).

(** So are the floor buttons. *)
Definition floorButtonsFresh (cfg : config) (w : world) : Prop :=
  floorDisabled (panel w)
  = refreshFlags cfg (state w) 0 (buttonFloors cfg) (floorDisabled (panel w)).

(** Every floor button that [floorBtnEls] holds is disabled. *)
Definition floorButtonsLocked (cfg : config) (w : world) : Prop :=
  forall j, tracked cfg j = true ->
            nth_error (floorDisabled (panel w)) j = Some true.

(** Every floor button that [floorBtnEls] does not hold is enabled. *)
Definition strayEnabled (cfg : config) (w : world) : Prop :=
  forall j, (j < 6)%nat -> tracked cfg j = false ->
            nth_error (floorDisabled (panel w)) j = Some false.

(** What every reachable world satisfies, beside [queueOk]. *)
Record pageOk (cfg : config) (w : world) : Prop := mkPageOk {
  pg_queue : queueOk w;
  pg_moving : moving (state w) = true -> pending isTick w;
  pg_doors : doors (state w) = DoorOpen -> pending keepsDoors w;
  pg_selected : selected (state w) <> current (state w) ->
                pending (servesOther (current (state w))) w;
  pg_doorButtons : doorButtonsOk w;
  pg_count : length (floorDisabled (panel w)) = 6%nat;
  pg_locked : moving (state w) = true -> floorButtonsLocked cfg w;
  pg_fresh : floorButtonsFresh cfg w \/ pending isTick w
}.

(** *** Measures of what is pending *)




(** * Properties *)

(** ** Effects of the primitives on the fields *)

Lemma state_clearDoorTimer w : state (clearDoorTimer w) = state w.
Proof. unfold clearDoorTimer. destruct (doorTimer w); reflexivity. Qed.

Lemma state_startDoorAutoCloseTimer w :
  state (startDoorAutoCloseTimer w) = state w.
Proof.
  unfold startDoorAutoCloseTimer. simpl. apply state_clearDoorTimer.
Qed.

Lemma state_openHallDoors cfg f w : state (openHallDoors cfg f w) = state w.
Proof. unfold openHallDoors. destruct (hasHall cfg f); reflexivity. Qed.

Lemma state_closeHallDoors cfg f w : state (closeHallDoors cfg f w) = state w.
Proof. unfold closeHallDoors. destruct (hasHall cfg f); reflexivity. Qed.

Lemma set_doors_same s : set_doors (doors s) s = s.
Proof. destruct s; reflexivity. Qed.

Lemma state_openDoors cfg w :
  state (openDoors cfg w) = set_doors DoorOpen (state w).
Proof.
  unfold openDoors. destruct (doors (state w)) eqn:E.
  - change (state (startDoorAutoCloseTimer w) = set_doors DoorOpen (state w)).
    rewrite state_startDoorAutoCloseTimer, <- E. symmetry.
    apply set_doors_same.
  - change (set_doors DoorOpen (state (openHallDoors cfg (current (state w)) w))
            = set_doors DoorOpen (state w)).
    now rewrite state_openHallDoors.
Qed.

Lemma state_closeDoors_detached cfg w :
  state (closeDoors cfg Detached w) = set_doors DoorClosed (state w).
Proof.
  unfold closeDoors. rewrite state_clearDoorTimer.
  destruct (doors (state w)) eqn:E.
  - change (set_doors DoorClosed
              (state (closeHallDoors cfg (current (state w)) (clearDoorTimer w)))
            = set_doors DoorClosed (state w)).
    now rewrite state_closeHallDoors, state_clearDoorTimer.
  - change (state (clearDoorTimer w) = set_doors DoorClosed (state w)).
    rewrite state_clearDoorTimer, <- E. symmetry. apply set_doors_same.
Qed.

Lemma doorTimer_closeHallDoors cfg f w :
  doorTimer (closeHallDoors cfg f w) = doorTimer w.
Proof. unfold closeHallDoors. destruct (hasHall cfg f); reflexivity. Qed.

Lemma doorTimer_clearDoorTimer w : doorTimer (clearDoorTimer w) = None.
Proof. unfold clearDoorTimer. destruct (doorTimer w) eqn:E; auto. Qed.

Lemma clock_clearDoorTimer w : clock (clearDoorTimer w) = clock w.
Proof. unfold clearDoorTimer. destruct (doorTimer w); reflexivity. Qed.

Lemma nextId_clearDoorTimer w : nextId (clearDoorTimer w) = nextId w.
Proof. unfold clearDoorTimer. destruct (doorTimer w); reflexivity. Qed.

Lemma log_clearDoorTimer w : log (clearDoorTimer w) = log w.
Proof. unfold clearDoorTimer. destruct (doorTimer w); reflexivity. Qed.

Lemma panel_clearDoorTimer w : panel (clearDoorTimer w) = panel w.
Proof. unfold clearDoorTimer. destruct (doorTimer w); reflexivity. Qed.

Lemma timers_clearDoorTimer w :
  timers (clearDoorTimer w) =
  match doorTimer w with
  | Some id => cancel id (timers w)
  | None => timers w
  end.
Proof. unfold clearDoorTimer. destruct (doorTimer w); reflexivity. Qed.

Lemma In_cancel id t l : In t (cancel id l) <-> In t l /\ tid t <> id.
Proof.
  unfold cancel. rewrite filter_In, negb_true_iff, Nat.eqb_neq. tauto.
Qed.

(** ** The timer queue is well kept *)

Create HintDb queue.

Lemma queueOk_same w w' :
  doorTimer w' = doorTimer w -> clock w' = clock w ->
  nextId w' = nextId w -> timers w' = timers w ->
  queueOk w -> queueOk w'.
Proof.
  intros Hd Hc Hn Ht [F H N T O].
  constructor; rewrite ?Hd, ?Hc, ?Hn, ?Ht; assumption.
Qed.

Lemma queueOk_upd_state f w : queueOk w -> queueOk (upd_state f w).
Proof. now apply queueOk_same. Qed.

Lemma queueOk_emit e w : queueOk w -> queueOk (emit e w).
Proof. now apply queueOk_same. Qed.

Lemma queueOk_refreshButtons cfg w : queueOk w -> queueOk (refreshButtons cfg w).
Proof. now apply queueOk_same. Qed.

Lemma queueOk_updateHeader w : queueOk w -> queueOk (updateHeader w).
Proof. now apply queueOk_same. Qed.

Lemma queueOk_openHallDoors cfg f w :
  queueOk w -> queueOk (openHallDoors cfg f w).
Proof.
  unfold openHallDoors. destruct (hasHall cfg f); auto using queueOk_emit.
Qed.

Lemma queueOk_setTimeout c ms w :
  isAutoClose c = false -> queueOk w -> queueOk (setTimeout c ms w).
Proof.
  intros Hc [F H N T O]. constructor; simpl.
  - intros t Ht. apply in_app_or in Ht. destruct Ht as [Ht | [<- | []]].
    + specialize (F t Ht). lia.
    + simpl. lia.
  - intros id Hid. specialize (H id Hid). lia.
  - rewrite map_app. simpl. apply NoDup_app; [assumption | repeat constructor; intros [] | ].
    intros x Hx [<- | []]. apply in_map_iff in Hx.
    destruct Hx as [t [Ht1 Ht2]]. specialize (F t Ht2). lia.
  - intros t Ht. apply in_app_or in Ht. destruct Ht as [Ht | [<- | []]].
    + auto.
    + simpl. lia.
  - intros t Ht. apply in_app_or in Ht. destruct Ht as [Ht | [<- | []]].
    + auto.
    + simpl. split.
      * intros ->. discriminate.
      * intros Hid. specialize (H _ Hid). lia.
Qed.

Lemma NoDup_map_cancel id l :
  NoDup (map tid l) -> NoDup (map tid (cancel id l)).
Proof.
  induction l as [|t l IH]; simpl; intros Hn; [constructor|].
  inversion Hn as [|? ? Hnotin Hn']; subst.
  destruct (negb (tid t =? id)%nat); simpl; auto.
  constructor; auto.
  intros Hin. apply Hnotin. apply in_map_iff in Hin.
  destruct Hin as [u [Hu1 Hu2]]. apply In_cancel in Hu2.
  apply in_map_iff. exists u. tauto.
Qed.

Lemma queueOk_clearTimeout id w :
  queueOk w -> queueOk (clearTimeout id w).
Proof.
  intros [F H N T O]. constructor; simpl.
  - intros t Ht. apply In_cancel in Ht. apply F. tauto.
  - assumption.
  - now apply NoDup_map_cancel.
  - intros t Ht. apply In_cancel in Ht. apply T. tauto.
  - intros t Ht. apply In_cancel in Ht. apply O. tauto.
Qed.

Lemma queueOk_clearDoorTimer w : queueOk w -> queueOk (clearDoorTimer w).
Proof.
  intros Hq. unfold clearDoorTimer.
  destruct (doorTimer w) as [id|] eqn:E; [|assumption].
  destruct Hq as [F H N T O]. constructor; simpl.
  - intros t Ht. apply In_cancel in Ht. apply F. tauto.
  - discriminate.
  - now apply NoDup_map_cancel.
  - intros t Ht. apply In_cancel in Ht. apply T. tauto.
  - intros t Ht. apply In_cancel in Ht. destruct Ht as [Ht Hne].
    split; [|discriminate].
    intros Hc. apply (O t Ht) in Hc. congruence.
Qed.

(** After [clearDoorTimer] no auto-close timer is pending. *)
Lemma clearDoorTimer_noAutoClose w :
  queueOk w ->
  forall t, In t (timers (clearDoorTimer w)) -> cb t <> AutoClose.
Proof.
  intros [F H N T O] t Ht Hc. rewrite timers_clearDoorTimer in Ht.
  destruct (doorTimer w) as [id|] eqn:E.
  - apply In_cancel in Ht. destruct Ht as [Ht Hne].
    apply (O t Ht) in Hc. congruence.
  - apply (O t Ht) in Hc. discriminate.
Qed.

Lemma queueOk_startDoorAutoCloseTimer w :
  queueOk w -> queueOk (startDoorAutoCloseTimer w).
Proof.
  intros Hq. pose proof (clearDoorTimer_noAutoClose w Hq) as Hno.
  apply queueOk_clearDoorTimer in Hq. destruct Hq as [F H N T O].
  unfold startDoorAutoCloseTimer. constructor; simpl.
  - intros t Ht. apply in_app_or in Ht. destruct Ht as [Ht | [<- | []]].
    + specialize (F t Ht). lia.
    + simpl. lia.
  - intros id Hid. inversion Hid. lia.
  - rewrite map_app. simpl. apply NoDup_app; [assumption | repeat constructor; intros [] | ].
    intros x Hx [<- | []]. apply in_map_iff in Hx.
    destruct Hx as [t [Ht1 Ht2]]. specialize (F t Ht2). lia.
  - intros t Ht. apply in_app_or in Ht. destruct Ht as [Ht | [<- | []]].
    + auto.
    + simpl. unfold doorAutoCloseMs. lia.
  - intros t Ht. apply in_app_or in Ht. destruct Ht as [Ht | [<- | []]].
    + split.
      * intros Hc. now apply Hno in Hc.
      * intros Hid. inversion Hid as [Hid']. specialize (F t Ht). lia.
    + simpl. tauto.
Qed.

Lemma queueOk_closeHallDoors cfg f w :
  queueOk w -> queueOk (closeHallDoors cfg f w).
Proof.
  unfold closeHallDoors. destruct (hasHall cfg f); auto.
  intros Hq. apply queueOk_setTimeout; [reflexivity|]. now apply queueOk_emit.
Qed.

#[export] Hint Resolve queueOk_upd_state queueOk_emit queueOk_refreshButtons
  queueOk_updateHeader queueOk_openHallDoors queueOk_closeHallDoors
  queueOk_clearDoorTimer queueOk_startDoorAutoCloseTimer : queue.
#[export] Hint Extern 1 (queueOk (setTimeout _ _ _)) =>
  apply queueOk_setTimeout; [reflexivity|] : queue.

Lemma queueOk_openDoors cfg w : queueOk w -> queueOk (openDoors cfg w).
Proof.
  intros Hq. unfold openDoors.
  destruct (doors (state w)); cbv zeta; auto 10 with queue.
Qed.

Lemma queueOk_arrive cfg w : queueOk w -> queueOk (arrive cfg w).
Proof.
  intros Hq. unfold arrive. cbv zeta.
  apply queueOk_openDoors. auto 10 with queue.
Qed.

Lemma queueOk_travelLoop cfg steps step temp i w :
  queueOk w -> queueOk (travelLoop cfg steps step temp i w).
Proof.
  intros Hq. unfold travelLoop.
  destruct (i <? steps); auto using queueOk_arrive with queue.
Qed.

Lemma queueOk_travelTick cfg steps step temp i w :
  queueOk w -> queueOk (travelTick cfg steps step temp i w).
Proof.
  intros Hq. unfold travelTick. cbv zeta.
  apply queueOk_travelLoop. auto with queue.
Qed.

Lemma queueOk_goToFloor_afterClose cfg target w :
  queueOk w -> queueOk (goToFloor_afterClose cfg target w).
Proof.
  intros Hq. unfold goToFloor_afterClose. cbv zeta.
  destruct (_ =? 0).
  - apply queueOk_openDoors. auto with queue.
  - apply queueOk_travelLoop. auto 10 with queue.
Qed.

Lemma queueOk_resume cfg a w : queueOk w -> queueOk (resume cfg a w).
Proof.
  destruct a; simpl; auto using queueOk_goToFloor_afterClose.
Qed.

Lemma queueOk_closeDoors cfg a w : queueOk w -> queueOk (closeDoors cfg a w).
Proof.
  intros Hq. unfold closeDoors. cbv zeta.
  destruct (doors (state (clearDoorTimer w))).
  - apply queueOk_setTimeout; [now destruct a|]. auto 10 with queue.
  - apply queueOk_resume. auto with queue.
Qed.

Lemma queueOk_goToFloor cfg target w :
  queueOk w -> queueOk (goToFloor cfg target w).
Proof.
  intros Hq. unfold goToFloor. cbv zeta.
  destruct (_ || _).
  - auto with queue.
  - apply queueOk_closeDoors. auto 10 with queue.
Qed.

Lemma queueOk_runCall cfg c w : queueOk w -> queueOk (runCall cfg c w).
Proof.
  destruct c; simpl;
    auto using queueOk_goToFloor, queueOk_openDoors, queueOk_closeDoors.
Qed.

Lemma queueOk_runCallback cfg c w :
  queueOk w -> queueOk (runCallback cfg c w).
Proof.
  intros Hq. destruct c; simpl.
  - destruct (moving (state w)); auto using queueOk_closeDoors.
  - auto with queue.
  - apply queueOk_resume. auto with queue.
  - auto with queue.
  - now apply queueOk_travelTick.
Qed.

(** ** The event loop keeps the queue *)

Lemma nextTimer_In l t : nextTimer l = Some t -> In t l.
Proof.
  revert t. induction l as [|a l IH]; simpl; intros t H; [discriminate|].
  destruct (nextTimer l) as [u|].
  - destruct (due a <=? due u); inversion H; subst; auto.
  - inversion H; auto.
Qed.

Lemma nextTimer_min l t :
  nextTimer l = Some t -> forall u, In u l -> due t <= due u.
Proof.
  revert t. induction l as [|a l IH]; simpl; intros t H u Hu; [contradiction|].
  destruct (nextTimer l) as [v|] eqn:E.
  - specialize (IH v eq_refl).
    destruct (due a <=? due v) eqn:L; inversion H; subst.
    + apply Z.leb_le in L. destruct Hu as [<- | Hu]; [lia|].
      specialize (IH u Hu). lia.
    + apply Z.leb_gt in L. destruct Hu as [<- | Hu]; [lia|]. auto.
  - inversion H; subst. destruct Hu as [<- | Hu]; [lia|].
    destruct l; [contradiction|]. simpl in E.
    destruct (nextTimer l) as [x|]; [destruct (_ <=? _)|]; discriminate.
Qed.


Lemma queueOk_fire w t :
  queueOk w -> nextTimer (timers w) = Some t ->
  queueOk (set_clock (due t) (clearTimeout (tid t) w)).
Proof.
  intros Hq Hn. pose proof (nextTimer_min _ _ Hn) as Hmin.
  apply (queueOk_clearTimeout (tid t)) in Hq. destruct Hq as [F H N T O].
  constructor; simpl in *; auto.
  intros u Hu. apply In_cancel in Hu. apply Hmin. tauto.
Qed.

Lemma queueOk_set_clock t w :
  canHappenAt t w = true -> queueOk w -> queueOk (set_clock t w).
Proof.
  unfold canHappenAt. rewrite andb_true_iff, forallb_forall.
  intros [_ Hall] [F H N T O]. constructor; simpl; auto.
  intros u Hu. apply Z.leb_le. auto.
Qed.

Lemma queueOk_step cfg w i w' :
  queueOk w -> step cfg w i = Some w' -> queueOk w'.
Proof.
  intros Hq. destruct i as [|t c|t b]; simpl.
  - destruct (nextTimer (timers w)) as [tm|] eqn:E; [|discriminate].
    intros H; inversion H; subst.
    apply queueOk_runCallback. now apply queueOk_fire.
  - destruct (canHappenAt t w) eqn:E; [|discriminate].
    intros H; inversion H; subst.
    apply queueOk_runCall. now apply queueOk_set_clock.
  - destruct (canHappenAt t w) eqn:E; [|discriminate].
    destruct (clickTarget cfg b w) as [c|]; [|discriminate].
    intros H; inversion H; subst.
    apply queueOk_runCall. now apply queueOk_set_clock.
Qed.

Lemma queueOk_run cfg ins : forall w w',
  queueOk w -> run cfg w ins = Some w' -> queueOk w'.
Proof.
  induction ins as [|i ins IH]; simpl; intros w w' Hq H.
  - inversion H; subst; assumption.
  - destruct (step cfg w i) as [w1|] eqn:E; [|discriminate].
    eapply IH; [|eassumption]. eapply queueOk_step; eassumption.
Qed.

Lemma queueOk_world0 : queueOk world0.
Proof.
  constructor; simpl; try contradiction; try discriminate. constructor.
Qed.

Lemma queueOk_init cfg : queueOk (init cfg).
Proof.
  unfold init, buildControls. apply queueOk_openDoors.
  auto using queueOk_world0 with queue.
Qed.

Lemma reachable_queueOk cfg w : reachable cfg w -> queueOk w.
Proof.
  intros [ins H]. eapply queueOk_run; [apply queueOk_init | eassumption].
Qed.


(** ** Suspended travel sequences *)

(** The door routines cancel the auto-close timer and nothing else, so
    suspended travel sequences stay pending. *)

Lemma filter_cancel (P : timer -> bool) id l :
  (forall t, In t l -> tid t = id -> P t = false) ->
  filter P (cancel id l) = filter P l.
Proof.
  induction l as [|a l IH]; simpl; intros H; [reflexivity|].
  destruct (tid a =? id)%nat eqn:E; simpl.
  - apply Nat.eqb_eq in E. rewrite (H a (or_introl eq_refl) E). auto.
  - rewrite IH by auto. reflexivity.
Qed.

Lemma travelTimers_setTimeout c ms w :
  travelTimers (setTimeout c ms w) =
  travelTimers w ++
    (if isTravel c then [mkTimer (nextId w) (clock w + Z.max 0 ms) c] else []).
Proof.
  unfold travelTimers. simpl. rewrite filter_app. simpl.
  destruct (isTravel c); reflexivity.
Qed.

Lemma travelTimers_clearDoorTimer w :
  queueOk w -> travelTimers (clearDoorTimer w) = travelTimers w.
Proof.
  intros Hq. unfold travelTimers. rewrite timers_clearDoorTimer.
  destruct (doorTimer w) as [id|] eqn:E; [|reflexivity].
  apply filter_cancel. intros t Ht Hid.
  assert (Hc : cb t = AutoClose) by (apply (q_owner w Hq t Ht); congruence).
  now rewrite Hc.
Qed.

Lemma travelTimers_startDoorAutoCloseTimer w :
  queueOk w -> travelTimers (startDoorAutoCloseTimer w) = travelTimers w.
Proof.
  intros Hq. unfold startDoorAutoCloseTimer.
  change (travelTimers (setTimeout AutoClose doorAutoCloseMs (clearDoorTimer w))
          = travelTimers w).
  rewrite travelTimers_setTimeout. simpl. rewrite app_nil_r.
  now apply travelTimers_clearDoorTimer.
Qed.

Lemma travelTimers_openHallDoors cfg f w :
  travelTimers (openHallDoors cfg f w) = travelTimers w.
Proof. unfold openHallDoors. destruct (hasHall cfg f); reflexivity. Qed.

Lemma travelTimers_closeHallDoors cfg f w :
  travelTimers (closeHallDoors cfg f w) = travelTimers w.
Proof.
  unfold closeHallDoors. destruct (hasHall cfg f); [|reflexivity].
  rewrite travelTimers_setTimeout. simpl. now rewrite app_nil_r.
Qed.

Lemma travelTimers_openDoors cfg w :
  queueOk w -> travelTimers (openDoors cfg w) = travelTimers w.
Proof.
  intros Hq. unfold openDoors. destruct (doors (state w)).
  - change (travelTimers (startDoorAutoCloseTimer w) = travelTimers w).
    now apply travelTimers_startDoorAutoCloseTimer.
  - cbv zeta. rewrite travelTimers_setTimeout. simpl. rewrite app_nil_r.
    change (travelTimers (openHallDoors cfg (current (state w)) w)
            = travelTimers w).
    apply travelTimers_openHallDoors.
Qed.

Lemma travelTimers_closeDoors_detached cfg w :
  queueOk w -> travelTimers (closeDoors cfg Detached w) = travelTimers w.
Proof.
  intros Hq. unfold closeDoors. cbv zeta.
  destruct (doors (state (clearDoorTimer w))).
  - rewrite travelTimers_setTimeout. simpl. rewrite app_nil_r.
    change (travelTimers
              (closeHallDoors cfg (current (state (clearDoorTimer w)))
                              (clearDoorTimer w)) = travelTimers w).
    rewrite travelTimers_closeHallDoors.
    now apply travelTimers_clearDoorTimer.
  - change (travelTimers (clearDoorTimer w) = travelTimers w).
    now apply travelTimers_clearDoorTimer.
Qed.

(** Firing a timer that is not a travel sequence leaves them pending. *)
Lemma travelTimers_fire_other w t :
  queueOk w -> In t (timers w) -> isTravel (cb t) = false ->
  travelTimers (set_clock (due t) (clearTimeout (tid t) w)) = travelTimers w.
Proof.
  intros Hq Ht Hc. unfold travelTimers. simpl.
  apply filter_cancel. intros u Hu Hid.
  assert (u = t); [|subst; assumption].
  pose proof (q_nodup w Hq) as Hn. clear - Hn Hu Ht Hid.
  induction (timers w) as [|a l IH]; [contradiction|].
  simpl in Hn. inversion Hn as [|? ? Hnotin Hn']; subst.
  destruct Hu as [-> | Hu], Ht as [-> | Ht]; auto.
  - exfalso. apply Hnotin. rewrite Hid. now apply in_map.
  - exfalso. apply Hnotin. rewrite <- Hid. now apply in_map.
Qed.

Lemma travelPending_iff w : travelPending w <-> travelTimers w <> [].
Proof.
  unfold travelPending, travelTimers. split.
  - intros [t [Ht Hc]] E.
    assert (Hin : In t (filter (fun t => isTravel (cb t)) (timers w)))
      by (apply filter_In; auto).
    rewrite E in Hin. contradiction.
  - intros Hne. destruct (filter _ (timers w)) as [|t l] eqn:E; [congruence|].
    assert (Hin : In t (filter (fun t => isTravel (cb t)) (timers w)))
      by (rewrite E; left; reflexivity).
    apply filter_In in Hin. exists t. assumption.
Qed.

(** ** A direction is shown only while a request is being served *)

Lemma state_arrive cfg w :
  state (arrive cfg w) =
  mkCar (current (state w)) 0 false DoorOpen (current (state w)).
Proof. unfold arrive. cbv zeta. rewrite state_openDoors. reflexivity. Qed.

Lemma app_one_not_nil {A} (l : list A) (x : A) : l ++ [x] <> [].
Proof. destruct l; discriminate. Qed.

Lemma dir_travelLoop cfg steps step temp i w :
  direction (state (travelLoop cfg steps step temp i w)) <> 0 ->
  travelTimers (travelLoop cfg steps step temp i w) <> [].
Proof.
  unfold travelLoop. destruct (i <? steps).
  - intros _. rewrite travelTimers_setTimeout. apply app_one_not_nil.
  - rewrite state_arrive. simpl. congruence.
Qed.

Lemma dir_travelTick cfg steps step temp i w :
  direction (state (travelTick cfg steps step temp i w)) <> 0 ->
  travelTimers (travelTick cfg steps step temp i w) <> [].
Proof. unfold travelTick. cbv zeta. apply dir_travelLoop. Qed.

Lemma dir_goToFloor_afterClose cfg target w :
  direction (state (goToFloor_afterClose cfg target w)) <> 0 ->
  travelTimers (goToFloor_afterClose cfg target w) <> [].
Proof.
  unfold goToFloor_afterClose. cbv zeta. destruct (_ =? 0).
  - rewrite state_openDoors. simpl. congruence.
  - apply dir_travelLoop.
Qed.

Lemma dir_closeDoors_awaited cfg target w :
  direction (state (closeDoors cfg (AwaitedByGoToFloor target) w)) <> 0 ->
  travelTimers (closeDoors cfg (AwaitedByGoToFloor target) w) <> [].
Proof.
  unfold closeDoors. cbv zeta. destruct (doors (state (clearDoorTimer w))).
  - intros _. rewrite travelTimers_setTimeout. apply app_one_not_nil.
  - apply dir_goToFloor_afterClose.
Qed.

Lemma dir_goToFloor cfg target w :
  (direction (state w) <> 0 -> travelTimers w <> []) ->
  direction (state (goToFloor cfg target w)) <> 0 ->
  travelTimers (goToFloor cfg target w) <> [].
Proof.
  intros Hw. unfold goToFloor. cbv zeta. destruct (_ || _).
  - exact Hw.
  - apply dir_closeDoors_awaited.
Qed.

Lemma dir_runCall cfg c w :
  queueOk w ->
  (direction (state w) <> 0 -> travelTimers w <> []) ->
  direction (state (runCall cfg c w)) <> 0 ->
  travelTimers (runCall cfg c w) <> [].
Proof.
  intros Hq Hw. destruct c; cbn [runCall].
  - now apply dir_goToFloor.
  - rewrite state_openDoors, travelTimers_openDoors by assumption. exact Hw.
  - rewrite state_closeDoors_detached, travelTimers_closeDoors_detached
      by assumption. exact Hw.
Qed.

Lemma dir_runCallback cfg c w :
  queueOk w ->
  (isTravel c = false -> direction (state w) <> 0 -> travelTimers w <> []) ->
  direction (state (runCallback cfg c w)) <> 0 ->
  travelTimers (runCallback cfg c w) <> [].
Proof.
  intros Hq Hw. destruct c as [| |a|f|steps stp temp i]; cbn [runCallback].
  - destruct (moving (state w)); [now apply Hw|].
    rewrite state_closeDoors_detached, travelTimers_closeDoors_detached
      by assumption. now apply Hw.
  - rewrite state_startDoorAutoCloseTimer,
      travelTimers_startDoorAutoCloseTimer by assumption. now apply Hw.
  - destruct a as [|target]; simpl.
    + now apply Hw.
    + apply dir_goToFloor_afterClose.
  - apply Hw. reflexivity.
  - apply dir_travelTick.
Qed.

Lemma dir_step cfg w i w' :
  queueOk w ->
  (direction (state w) <> 0 -> travelTimers w <> []) ->
  step cfg w i = Some w' ->
  direction (state w') <> 0 -> travelTimers w' <> [].
Proof.
  intros Hq Hw. destruct i as [|t c|t b]; simpl.
  - destruct (nextTimer (timers w)) as [tm|] eqn:E; [|discriminate].
    intros H; inversion H; subst.
    apply dir_runCallback; [now apply queueOk_fire|].
    intros Hc. rewrite travelTimers_fire_other; auto using nextTimer_In.
  - destruct (canHappenAt t w) eqn:E; [|discriminate].
    intros H; inversion H; subst.
    apply dir_runCall; [now apply queueOk_set_clock | exact Hw].
  - destruct (canHappenAt t w) eqn:E; [|discriminate].
    destruct (clickTarget cfg b w) as [c|]; [|discriminate].
    intros H; inversion H; subst.
    apply dir_runCall; [now apply queueOk_set_clock | exact Hw].
Qed.

Lemma dir_run cfg ins : forall w w',
  queueOk w ->
  (direction (state w) <> 0 -> travelTimers w <> []) ->
  run cfg w ins = Some w' ->
  direction (state w') <> 0 -> travelTimers w' <> [].
Proof.
  induction ins as [|i ins IH]; simpl; intros w w' Hq Hw H.
  - inversion H; subst; assumption.
  - destruct (step cfg w i) as [w1|] eqn:E; [|discriminate].
    eapply IH; [| |eassumption].
    + eapply queueOk_step; eassumption.
    + eapply dir_step; eassumption.
Qed.

(** C7 (as stated) fails: a floor requested with the doors open sets the
    direction at once, and [moving] stays false while the doors close. *)
Lemma direction_set_while_idle :
  exists w, run cfg6 (init cfg6) requestWithOpenDoors = Some w /\
            forallb isUserInput requestWithOpenDoors = true /\
            moving (state w) = false /\ direction (state w) = 1.
Proof. eexists. split; [vm_compute; reflexivity|]. repeat split. Qed.

(** ** Requests that are dropped *)

Lemma goToFloor_dropped cfg target w :
  moving (state w) || (target =? current (state w)) = true ->
  goToFloor cfg target w =
  refreshButtons cfg (upd_state (set_selected target) w).
Proof. unfold goToFloor. cbv zeta. simpl. now intros ->. Qed.

(** C4: while [moving] is set, [goToFloor(target)] returns at its guard:
    floor, direction, doors and the flag are untouched, no timer is
    created or cancelled, so no second travel sequence starts; the call
    itself sets [selected] to the target and refreshes the buttons. *)
Theorem request_while_traveling cfg w target :
  moving (state w) = true ->
  let w' := goToFloor cfg target w in
  selected (state w') = target /\
  current (state w') = current (state w) /\
  direction (state w') = direction (state w) /\
  moving (state w') = true /\
  doors (state w') = doors (state w) /\
  timers w' = timers w /\ doorTimer w' = doorTimer w /\
  nextId w' = nextId w /\ clock w' = clock w /\
  log w' = (clock w, RefreshButtons) :: log w.
Proof.
  intros Hm w'. subst w'. rewrite goToFloor_dropped by now rewrite Hm.
  simpl. rewrite Hm. repeat split.
Qed.

Lemma request_while_traveling_witness :
  exists w, run cfg6 (init cfg6) (twoRequests ++ [Fire; Fire]) = Some w /\
            selected (state (goToFloor cfg6 2 w)) = 2 /\
            current (state (goToFloor cfg6 2 w)) = current (state w) /\
            timers (goToFloor cfg6 2 w) = timers w.
Proof.
  eexists. split; [vm_compute; reflexivity|].
  match goal with
  | |- context [goToFloor cfg6 2 ?w] =>
      pose proof (request_while_traveling cfg6 w 2 eq_refl) as H
  end.
  cbv zeta in H. decompose [and] H. repeat split; assumption.
Defined.

(** C3 (as amended): [goToFloor(target)] with [target] equal to the
    current floor returns at its guard as well: it sets [selected] and
    refreshes the buttons, and does nothing else; the direction is not
    reset and the door-open routine does not run (doors, door timer and
    pending timers are as before). *)
Theorem request_for_current_floor cfg w target :
  moving (state w) = false ->
  target = current (state w) ->
  let w' := goToFloor cfg target w in
  state w' = set_selected target (state w) /\
  timers w' = timers w /\ doorTimer w' = doorTimer w /\
  nextId w' = nextId w /\ clock w' = clock w /\
  log w' = (clock w, RefreshButtons) :: log w.
Proof.
  intros Hm Ht w'. subst w'.
  rewrite goToFloor_dropped by (rewrite Ht, Z.eqb_refl; apply orb_true_r).
  repeat split.
Qed.

Lemma request_for_current_floor_witness :
  exists w, run cfg6 (init cfg6) idleClosed = Some w /\
            state (goToFloor cfg6 0 w) = set_selected 0 (state w) /\
            timers (goToFloor cfg6 0 w) = timers w.
Proof.
  eexists. split; [vm_compute; reflexivity|].
  match goal with
  | |- context [goToFloor cfg6 0 ?w] =>
      pose proof (request_for_current_floor cfg6 w 0 eq_refl eq_refl) as H
  end.
  cbv zeta in H. decompose [and] H. split; assumption.
Defined.

(** C3 (as stated) fails: the car is idle at floor 0 with closed doors;
    [goToFloor(0)] leaves the doors closed and arms no timer. *)
Lemma same_floor_request_opens_nothing :
  exists w, run cfg6 (init cfg6) idleClosed = Some w /\
            moving (state w) = false /\ current (state w) = 0 /\
            doors (state w) = DoorClosed /\
            doors (state (goToFloor cfg6 0 w)) = DoorClosed /\
            timers (goToFloor cfg6 0 w) = [].
Proof. eexists. split; [vm_compute; reflexivity|]. repeat split. Qed.

(** ** The door routines *)

(** C10: [openDoors] and [closeDoors], called on their own, write no field
    of [state] but [doors], neither before their sleep nor after it; the
    dwell timer's callback, which calls [closeDoors], does not either. *)
Theorem door_routines_touch_doors_only cfg w :
  state (openDoors cfg w) = set_doors DoorOpen (state w) /\
  state (closeDoors cfg Detached w) = set_doors DoorClosed (state w) /\
  state (runCallback cfg OpenSettled w) = state w /\
  state (runCallback cfg (CloseSettled Detached) w) = state w /\
  (state (runCallback cfg AutoClose w) = state w \/
   state (runCallback cfg AutoClose w) = set_doors DoorClosed (state w)).
Proof.
  split; [apply state_openDoors|]. split; [apply state_closeDoors_detached|].
  split; [apply state_startDoorAutoCloseTimer|]. split; [reflexivity|].
  cbn [runCallback]. destruct (moving (state w)); [now left|].
  right. apply state_closeDoors_detached.
Qed.

Lemma refreshFlags_twice cfg s fs : forall j old,
  refreshFlags cfg s j fs (refreshFlags cfg s j fs old) =
  refreshFlags cfg s j fs old.
Proof.
  induction fs as [|f fs IH]; intros j [|o old]; simpl; try reflexivity.
  rewrite IH. destruct (tracked cfg j); reflexivity.
Qed.

Lemma panel_refresh_again cfg w0 w :
  state w = state w0 ->
  panel w = panel (refreshButtons cfg w0) ->
  panel (refreshButtons cfg w) = panel w.
Proof.
  intros Hs Hp. rewrite Hp. unfold refreshButtons.
  cbn -[refreshFlags buttonFloors]. rewrite Hs, Hp.
  cbn -[refreshFlags buttonFloors]. now rewrite refreshFlags_twice.
Qed.

Lemma closeDoors_detached_closed cfg w :
  doors (state w) = DoorClosed ->
  closeDoors cfg Detached w = refreshButtons cfg (clearDoorTimer w).
Proof.
  intros Hd. unfold closeDoors. cbv zeta.
  rewrite state_clearDoorTimer, Hd. reflexivity.
Qed.

Lemma closeDoors_noAutoClose cfg w :
  queueOk w ->
  forall t, In t (timers (closeDoors cfg Detached w)) -> cb t <> AutoClose.
Proof.
  intros Hq t. pose proof (clearDoorTimer_noAutoClose w Hq) as Hno.
  unfold closeDoors. cbv zeta.
  destruct (doors (state (clearDoorTimer w))).
  - simpl. unfold closeHallDoors. intros Ht. apply in_app_or in Ht.
    destruct Ht as [Ht | [<- | []]]; [|discriminate].
    destruct (hasHall cfg _); simpl in Ht; auto.
    apply in_app_or in Ht. destruct Ht as [Ht | [<- | []]]; auto. discriminate.
  - simpl. auto.
Qed.

(** C8: [closeDoors] always cancels the dwell timer: afterwards
    [doorTimer] is null and no auto-close callback is pending.  With the
    doors closed already it changes nothing else: [state] and the other
    timers are as before and only the buttons are refreshed.  A second
    call right after a first one is such a call. *)
Theorem closeDoors_idempotent cfg w :
  reachable cfg w ->
  let w' := closeDoors cfg Detached w in
  (doorTimer w' = None /\
   forall t, In t (timers w') -> cb t <> AutoClose) /\
  (doors (state w) = DoorClosed ->
   state w' = state w /\
   timers w' = match doorTimer w with
               | Some id => cancel id (timers w)
               | None => timers w
               end /\
   nextId w' = nextId w /\ clock w' = clock w /\
   log w' = (clock w, RefreshButtons) :: log w) /\
  (let w'' := closeDoors cfg Detached w' in
   state w'' = state w' /\ doorTimer w'' = doorTimer w' /\
   timers w'' = timers w' /\ nextId w'' = nextId w' /\
   clock w'' = clock w' /\ panel w'' = panel w').
Proof.
  intros Hr w'. apply reachable_queueOk in Hr.
  assert (Hdt : doorTimer w' = None).
  { subst w'. unfold closeDoors. cbv zeta.
    destruct (doors (state (clearDoorTimer w))); simpl.
    - rewrite doorTimer_closeHallDoors. apply doorTimer_clearDoorTimer.
    - apply doorTimer_clearDoorTimer. }
  assert (Hcl : doors (state w') = DoorClosed).
  { subst w'. now rewrite state_closeDoors_detached. }
  split; [|split].
  - split; [exact Hdt|]. now apply closeDoors_noAutoClose.
  - intros Hd. subst w'. rewrite closeDoors_detached_closed by assumption.
    simpl. rewrite state_clearDoorTimer, timers_clearDoorTimer,
      nextId_clearDoorTimer, clock_clearDoorTimer, log_clearDoorTimer.
    repeat split.
  - cbv zeta. rewrite (closeDoors_detached_closed cfg w' Hcl).
    assert (Hid : clearDoorTimer w' = w')
      by (unfold clearDoorTimer; now rewrite Hdt).
    rewrite Hid. repeat (split; [reflexivity|]).
    subst w'. unfold closeDoors. cbv zeta.
    destruct (doors (state (clearDoorTimer w)));
      [ apply (panel_refresh_again cfg
                 (upd_state (set_doors DoorClosed)
                    (emit CarDoorsClosing
                       (closeHallDoors cfg
                          (current (state (clearDoorTimer w)))
                          (clearDoorTimer w)))))
      | apply (panel_refresh_again cfg (clearDoorTimer w)) ];
      reflexivity.
Qed.

Lemma closeDoors_idempotent_witness :
  exists w, run cfg6 (init cfg6) idleClosed = Some w /\
            doors (state w) = DoorClosed /\
            state (closeDoors cfg6 Detached w) = state w.
Proof.
  eexists. split; [vm_compute; reflexivity|]. split; [reflexivity|].
  match goal with
  | |- state (closeDoors cfg6 Detached ?w) = _ =>
      assert (R : reachable cfg6 w)
        by (exists idleClosed; vm_compute; reflexivity);
      destruct (closeDoors_idempotent cfg6 w R) as [_ [H _]]
  end.
  destruct (H eq_refl) as [Hs _]. exact Hs.
Defined.

(** ** The dwell timer *)

Lemma noAutoClose_setTimeout c ms w :
  isAutoClose c = false -> noAutoClose w -> noAutoClose (setTimeout c ms w).
Proof.
  intros Hc Hw t Ht. simpl in Ht. apply in_app_or in Ht.
  destruct Ht as [Ht | [<- | []]]; [now apply Hw|].
  simpl. intros ->. discriminate.
Qed.

Lemma noAutoClose_openHallDoors cfg f w :
  noAutoClose w -> noAutoClose (openHallDoors cfg f w).
Proof. unfold openHallDoors. destruct (hasHall cfg f); auto. Qed.

Lemma noAutoClose_closeHallDoors cfg f w :
  noAutoClose w -> noAutoClose (closeHallDoors cfg f w).
Proof.
  unfold closeHallDoors. destruct (hasHall cfg f); auto.
  intros Hw. now apply noAutoClose_setTimeout.
Qed.

Lemma noAutoClose_openDoors_closed cfg w :
  doors (state w) = DoorClosed -> noAutoClose w ->
  noAutoClose (openDoors cfg w).
Proof.
  intros Hd Hw. unfold openDoors. rewrite Hd. cbv zeta.
  apply noAutoClose_setTimeout; [reflexivity|].
  now apply (noAutoClose_openHallDoors cfg (current (state w))) in Hw.
Qed.

Lemma noAutoClose_goToFloor_afterClose cfg target w :
  doors (state w) = DoorClosed -> noAutoClose w ->
  noAutoClose (goToFloor_afterClose cfg target w).
Proof.
  intros Hd Hw. unfold goToFloor_afterClose. cbv zeta.
  destruct (Z.abs (target - current (state w)) =? 0) eqn:E.
  - now apply noAutoClose_openDoors_closed.
  - unfold travelLoop.
    assert (L : (0 <? Z.abs (target - current (state w))) = true)
      by (apply Z.eqb_neq in E; apply Z.ltb_lt; lia).
    cbn [state upd_state refreshButtons emit set_panel current set_moving].
    rewrite L. now apply noAutoClose_setTimeout.
Qed.

Lemma noAutoClose_closeDoors cfg a w :
  queueOk w -> noAutoClose (closeDoors cfg a w).
Proof.
  intros Hq. pose proof (clearDoorTimer_noAutoClose w Hq) as Hno.
  fold (noAutoClose (clearDoorTimer w)) in Hno.
  unfold closeDoors. cbv zeta.
  destruct (doors (state (clearDoorTimer w))) eqn:E.
  - apply noAutoClose_setTimeout; [now destruct a|].
    now apply (noAutoClose_closeHallDoors cfg
                 (current (state (clearDoorTimer w)))) in Hno.
  - destruct a as [|target]; [exact Hno|].
    now apply noAutoClose_goToFloor_afterClose.
Qed.

Lemma clock_closeHallDoors cfg f w : clock (closeHallDoors cfg f w) = clock w.
Proof. unfold closeHallDoors. destruct (hasHall cfg f); reflexivity. Qed.

Lemma clock_closeDoors_detached cfg w :
  clock (closeDoors cfg Detached w) = clock w.
Proof.
  unfold closeDoors. cbv zeta. destruct (doors (state (clearDoorTimer w))).
  - change (clock (closeHallDoors cfg (current (state (clearDoorTimer w)))
                                  (clearDoorTimer w)) = clock w).
    now rewrite clock_closeHallDoors, clock_clearDoorTimer.
  - change (clock (clearDoorTimer w) = clock w). apply clock_clearDoorTimer.
Qed.

(** A timer created last and due strictly before all others is next. *)
Lemma nextTimer_last l t :
  (forall u, In u l -> due t < due u) -> nextTimer (l ++ [t]) = Some t.
Proof.
  induction l as [|a l IH]; simpl; intros H; [reflexivity|].
  rewrite IH by auto.
  assert (L : due t < due a) by auto.
  apply Z.leb_gt in L. now rewrite L.
Qed.

Lemma dwell_then_close cfg w t :
  nextTimer (timers w) = Some t ->
  cb t = OpenSettled ->
  moving (state w) = false ->
  (forall u, In u (timers w) -> u = t \/ due t + doorAutoCloseMs < due u) ->
  exists w2, run cfg w [Fire; Fire] = Some w2 /\
             clock w2 = due t + doorAutoCloseMs /\
             state w2 = set_doors DoorClosed (state w).
Proof.
  intros Hn Hc Hm Hlate.
  set (w0 := set_clock (due t) (clearTimeout (tid t) w)).
  set (w1 := startDoorAutoCloseTimer w0).
  set (new := mkTimer (nextId (clearDoorTimer w0))
                      (clock (clearDoorTimer w0) + Z.max 0 doorAutoCloseMs)
                      AutoClose).
  assert (Hs1 : step cfg w Fire = Some w1)
    by (simpl; rewrite Hn, Hc; reflexivity).
  assert (Ht1 : timers w1 = timers (clearDoorTimer w0) ++ [new]) by reflexivity.
  assert (Hdue : due new = due t + doorAutoCloseMs).
  { unfold new. simpl. rewrite clock_clearDoorTimer. reflexivity. }
  assert (Hn1 : nextTimer (timers w1) = Some new).
  { rewrite Ht1. apply nextTimer_last. intros u Hu. rewrite Hdue.
    rewrite timers_clearDoorTimer in Hu.
    assert (Hu' : In u (cancel (tid t) (timers w))).
    { destruct (doorTimer w0); [apply In_cancel in Hu; tauto | exact Hu]. }
    apply In_cancel in Hu'. destruct Hu' as [Hu1 Hu2].
    destruct (Hlate u Hu1) as [-> | L]; [congruence | exact L]. }
  set (w2 := set_clock (due new) (clearTimeout (tid new) w1)).
  assert (Hst : state w2 = state w).
  { unfold w2. simpl. unfold w1. rewrite state_clearDoorTimer. reflexivity. }
  exists (closeDoors cfg Detached w2). split; [|split].
  - cbn [run]. rewrite Hs1. cbn [step]. rewrite Hn1.
    change (cb new) with AutoClose. cbn [runCallback].
    fold w2. now rewrite Hst, Hm.
  - rewrite clock_closeDoors_detached. unfold w2. simpl. exact Hdue.
  - now rewrite state_closeDoors_detached, Hst.
Qed.

Lemma In_timers_clearDoorTimer w u :
  In u (timers (clearDoorTimer w)) -> In u (timers w).
Proof.
  rewrite timers_clearDoorTimer. destruct (doorTimer w); [|auto].
  intros H. apply In_cancel in H. tauto.
Qed.

Lemma In_timers_closeDoors_detached cfg w u :
  In u (timers (closeDoors cfg Detached w)) ->
  In u (timers w) \/ (exists f, cb u = HallSettled f) \/
  cb u = CloseSettled Detached.
Proof.
  unfold closeDoors. cbv zeta. destruct (doors (state (clearDoorTimer w))).
  - cbn [timers setTimeout refreshButtons emit set_panel upd_state].
    intros H. apply in_app_or in H. destruct H as [H | [<- | []]]; [|auto].
    unfold closeHallDoors in H. destruct (hasHall cfg _).
    + cbn [timers setTimeout emit] in H. apply in_app_or in H.
      destruct H as [H | [<- | []]].
      * left. now apply In_timers_clearDoorTimer.
      * right. left. eexists. reflexivity.
    + left. now apply In_timers_clearDoorTimer.
  - cbn [resume timers refreshButtons emit set_panel]. intros H.
    left. now apply In_timers_clearDoorTimer.
Qed.

Lemma doorTimer_closeDoors_detached cfg w :
  doorTimer (closeDoors cfg Detached w) = None.
Proof.
  unfold closeDoors. cbv zeta. destruct (doors (state (clearDoorTimer w))).
  - change (doorTimer (closeHallDoors cfg (current (state (clearDoorTimer w)))
                                      (clearDoorTimer w)) = None).
    now rewrite doorTimer_closeHallDoors, doorTimer_clearDoorTimer.
  - change (doorTimer (clearDoorTimer w) = None).
    apply doorTimer_clearDoorTimer.
Qed.

Lemma settling_closeDoors cfg w :
  queueOk w -> (forall u, In u (timers w) -> cb u = AutoClose) ->
  settling (closeDoors cfg Detached w).
Proof.
  intros Hq Hall. split; [apply doorTimer_closeDoors_detached|].
  intros u Hu.
  pose proof (noAutoClose_closeDoors cfg Detached w Hq u Hu) as Hno.
  apply In_timers_closeDoors_detached in Hu.
  destruct Hu as [Hu | [Hu | Hu]]; [|now right | now left].
  exfalso. apply Hno. now apply Hall.
Qed.

Lemma settling_fire cfg w w' :
  settling w -> step cfg w Fire = Some w' ->
  settling w' /\ state w' = state w.
Proof.
  intros [Hd Hall] Hstep. simpl in Hstep.
  destruct (nextTimer (timers w)) as [t|] eqn:En; [|discriminate].
  inversion Hstep; subst w'; clear Hstep.
  assert (Hpast : forall u,
             In u (timers (set_clock (due t) (clearTimeout (tid t) w))) ->
             cb u = CloseSettled Detached \/ exists f, cb u = HallSettled f).
  { intros u Hu. simpl in Hu. apply In_cancel in Hu. apply Hall. tauto. }
  destruct (Hall t (nextTimer_In _ _ En)) as [Hc | [f Hc]]; rewrite Hc;
    cbn [runCallback resume]; (split; [split|]); auto.
Qed.

Lemma settling_run cfg n : forall w w',
  settling w -> run cfg w (repeat Fire n) = Some w' ->
  settling w' /\ state w' = state w.
Proof.
  induction n as [|n IH]; cbn [repeat run]; intros w w' Hw H.
  - inversion H; subst. now split.
  - destruct (step cfg w Fire) as [w1|] eqn:E; [|discriminate].
    destruct (settling_fire cfg w w1 Hw E) as [Hw1 Hs1].
    destruct (IH w1 w' Hw1 H) as [Hw' Hs']. split; [exact Hw'|].
    congruence.
Qed.

(** C9 fails on the code.  [openDoors] arms the dwell timer only after
    its settling wait (lines 248-249) and does not look at the doors
    again, so a [closeDoors] that comes during that wait finds no timer
    to cancel (line 253) and the timer is armed behind its back.  Close
    pressed at 100 ms: the doors are closed, yet at 700 ms the dwell timer
    is armed and at 5700 ms its callback runs [closeDoors] on the closed
    doors.  Floor 5 requested at 100 ms: the timer armed at 700 ms, at
    the floor the car has left, is still pending when the car has
    arrived and opened its doors at 5300 ms, and closes them 400 ms
    later.  Only buttons were pressed. *)
Theorem dwell_timer_outlives_close :
  forallb isUserInput (closeDuringSettle ++ [Fire]) = true /\
  forallb isUserInput (requestDuringSettle ++ [Fire]) = true /\
  (exists w0 w w',
      run cfg6 (init cfg6) [Click 100 CloseBtn] = Some w0 /\
      doors (state w0) = DoorClosed /\ doorTimer w0 = None /\
      timers w0 = [mkTimer 1 700 OpenSettled; mkTimer 2 800 (HallSettled 0);
                   mkTimer 3 800 (CloseSettled Detached)] /\
      run cfg6 (init cfg6) closeDuringSettle = Some w /\
      state w = mkCar 0 0 false DoorClosed 0 /\
      doorTimer w = Some 4%nat /\
      timers w = [mkTimer 4 5700 AutoClose] /\
      step cfg6 w Fire = Some w' /\
      w' = closeDoors cfg6 Detached (set_clock 5700 (clearTimeout 4 w)) /\
      hd_error (log w') = Some (5700, RefreshButtons)) /\
  (exists w w',
      run cfg6 (init cfg6) requestDuringSettle = Some w /\
      clock w = 5300 /\ state w = mkCar 5 0 false DoorOpen 5 /\
      In (5300, CarDoorsOpening) (log w) /\
      nextTimer (timers w) = Some (mkTimer 4 5700 AutoClose) /\
      step cfg6 w Fire = Some w' /\
      clock w' = 5700 /\ state w' = mkCar 5 0 false DoorClosed 5 /\
      In (5700, CarDoorsClosing) (log w')).
Proof.
  split; [reflexivity|]. split; [reflexivity|]. split.
  - eexists. eexists. eexists.
    split; [vm_compute; reflexivity|]. split; [reflexivity|].
    split; [reflexivity|]. split; [reflexivity|].
    split; [vm_compute; reflexivity|]. split; [reflexivity|].
    split; [reflexivity|]. split; [reflexivity|].
    split; [vm_compute; reflexivity|].
    split; vm_compute; reflexivity.
  - eexists. eexists.
    split; [vm_compute; reflexivity|]. split; [reflexivity|].
    split; [reflexivity|].
    split; [vm_compute; right; left; reflexivity|].
    split; [vm_compute; reflexivity|].
    split; [vm_compute; reflexivity|]. split; [reflexivity|].
    split; [reflexivity|]. vm_compute. right. left. reflexivity.
Qed.

(** ** Two requests in quick succession *)

(** The car stands at floor 4 with open doors.  G is pressed: the
    direction is set to down, the doors start to close, and [moving] is
    still false for the 700 ms of the door delay.  100 ms later 5 is
    pressed: the guard of [goToFloor] lets it pass, the doors are closed
    already, and its travel starts at once. *)

(** C6 fails on the code: the second request, arriving during the
    door-closing wait of the first, starts a travel sequence of its own
    (two suspended [goToFloor] calls), and once the first has resumed two
    floor loops run side by side.  Only buttons were pressed. *)
Theorem second_request_starts_second_travel :
  forallb isUserInput (twoRequests ++ [Fire; Fire]) = true /\
  (exists w, run cfg6 (init cfg6) twoRequests = Some w /\
             travelTimers w =
               [mkTimer 12 6800 (CloseSettled (AwaitedByGoToFloor 0));
                mkTimer 13 7100 (TravelTick 1 1 4 0)]) /\
  (exists w, run cfg6 (init cfg6) (twoRequests ++ [Fire; Fire]) = Some w /\
             travelTimers w =
               [mkTimer 13 7100 (TravelTick 1 1 4 0);
                mkTimer 14 7700 (TravelTick 4 1 4 0)]).
Proof.
  split; [reflexivity|].
  split; eexists; (split; [vm_compute; reflexivity|]); reflexivity.
Qed.

(** C1 fails on the code for the travel of the first request: it was
    commanded from floor 4 down to floor 0 (4 steps), but its loop reads
    the direction the second request has written (+1).  After the tick
    of the other loop at 7100 ms its four ticks move the car up, the
    first one not at all (the other loop has put the car on 5 already),
    and it ends on floor 8 of a building of six floors, where [selected]
    is pinned. *)
Theorem raced_travel_misses_target :
  forallb isUserInput (twoRequests ++ repeat Fire 8) = true /\
  (exists w, run cfg6 (init cfg6) (twoRequests ++ [Fire; Fire]) = Some w /\
             current (state w) = 4 /\
             In (mkTimer 14 7700 (TravelTick (Z.abs (0 - 4)) 1 4 0))
                (timers w)) /\
  exists w, run cfg6 (init cfg6) (twoRequests ++ repeat Fire 8) = Some w /\
            travelTimers w = [] /\
            state w = mkCar 8 0 false DoorOpen 8 /\
            skipn 8 (headers w) =
              [(7100, 5); (7700, 5); (8600, 6); (9500, 7); (10400, 8)].
Proof.
  split; [reflexivity|]. split.
  - eexists. split; [vm_compute; reflexivity|]. split; [reflexivity|].
    right. left. reflexivity.
  - eexists. split; [vm_compute; reflexivity|]. repeat split.
Qed.

(** C2 fails on the code: floor 3 is requested with open doors, Open is
    pressed while they close (the button is enabled: the doors count as
    closed and [moving] is not set yet), and when the door delay of the
    request is over [moving] is set with the doors open. *)
Theorem traveling_with_open_doors :
  forallb isUserInput openWhileClosing = true /\
  exists w, run cfg6 (init cfg6) openWhileClosing = Some w /\
            moving (state w) = true /\ doors (state w) = DoorOpen /\
            travelTimers w = [mkTimer 6 2600 (TravelTick 3 1 0 0)].
Proof.
  split; [reflexivity|].
  eexists. split; [vm_compute; reflexivity|]. repeat split.
Qed.

(** ** Requests for floors that do not exist *)


(** With fewer than five floors [buildControls] itself creates buttons
    for negative floors: with three floors the fourth button is "-1", and
    a click on it takes the car there. *)
Example negative_floor_button :
  buttonFloors (mkConfig 3 700) = [2; 1; 0; -1; -2; 0] /\
  exists w, run (mkConfig 3 700) (init (mkConfig 3 700))
                ([Fire; Click 1000 (FloorBtn 3)] ++ repeat Fire 3)
            = Some w /\ current (state w) = -1.
Proof.
  split; [reflexivity|]. eexists. split; [vm_compute; reflexivity|].
  reflexivity.
Qed.

(** The branches of the routines, one equation each. *)

Lemma goToFloor_admitted cfg target w :
  moving (state w) = false -> target <> current (state w) ->
  goToFloor cfg target w =
  closeDoors cfg (AwaitedByGoToFloor target)
    (updateHeader
       (upd_state (set_direction (if current (state w) <? target then 1 else -1))
          (refreshButtons cfg (upd_state (set_selected target) w)))).
Proof.
  intros Hm Hne. unfold goToFloor. cbv zeta.
  cbn [state upd_state refreshButtons emit set_panel moving current
       set_selected].
  apply Z.eqb_neq in Hne. now rewrite Hm, Hne.
Qed.

Lemma closeDoors_open cfg a w :
  doors (state w) = DoorOpen ->
  closeDoors cfg a w =
  setTimeout (CloseSettled a) (doorTime cfg)
    (refreshButtons cfg
       (upd_state (set_doors DoorClosed)
          (emit CarDoorsClosing
             (closeHallDoors cfg (current (state w)) (clearDoorTimer w))))).
Proof.
  intros Hd. unfold closeDoors. cbv zeta.
  now rewrite state_clearDoorTimer, Hd.
Qed.

Lemma closeDoors_closed cfg a w :
  doors (state w) = DoorClosed ->
  closeDoors cfg a w = resume cfg a (refreshButtons cfg (clearDoorTimer w)).
Proof.
  intros Hd. unfold closeDoors. cbv zeta.
  now rewrite state_clearDoorTimer, Hd.
Qed.

Lemma goToFloor_afterClose_travel cfg target w :
  target <> current (state w) ->
  goToFloor_afterClose cfg target w =
  setTimeout
    (TravelTick (Z.abs (target - current (state w))) (direction (state w))
                (current (state w)) 0)
    SPEED_PER_FLOOR
    (emit (CarTransition (Z.abs (target - current (state w)) * SPEED_PER_FLOOR)
                         target)
       (refreshButtons cfg (upd_state (set_moving true) w))).
Proof.
  intros Hne. unfold goToFloor_afterClose. cbv zeta.
  assert (E : (Z.abs (target - current (state w)) =? 0) = false)
    by (apply Z.eqb_neq; lia).
  rewrite E. unfold travelLoop.
  assert (L : (0 <? Z.abs (target - current (state w))) = true)
    by (apply Z.ltb_lt; lia).
  now rewrite L.
Qed.

Lemma goToFloor_afterClose_same cfg target w :
  target = current (state w) ->
  goToFloor_afterClose cfg target w =
  openDoors cfg (updateHeader (upd_state (set_direction 0) w)).
Proof.
  intros ->. unfold goToFloor_afterClose. cbv zeta.
  now rewrite Z.sub_diag.
Qed.


(** ** A travel sequence that runs alone *)

(** What the door routines leave alone. *)















(** The callbacks that are not travel sequences run out. *)











(** The ticks of the floor loop. *)




Lemma clock_openHallDoors cfg f w : clock (openHallDoors cfg f w) = clock w.
Proof. unfold openHallDoors. destruct (hasHall cfg f); reflexivity. Qed.

Lemma clock_openDoors cfg w : clock (openDoors cfg w) = clock w.
Proof.
  unfold openDoors. destruct (doors (state w)).
  - apply clock_clearDoorTimer.
  - apply (clock_openHallDoors cfg (current (state w)) w).
Qed.

Lemma doorOpenRan_openDoors cfg w : doorOpenRan cfg (openDoors cfg w).
Proof.
  split; [now rewrite state_openDoors|].
  rewrite clock_openDoors. unfold openDoors. destruct (doors (state w)).
  - exists (mkTimer (nextId (clearDoorTimer w))
                    (clock (clearDoorTimer w) + Z.max 0 doorAutoCloseMs)
                    AutoClose).
    split.
    + simpl. apply in_or_app. right. now left.
    + left. simpl. rewrite clock_clearDoorTimer. repeat split.
  - cbv zeta.
    exists (mkTimer (nextId (openHallDoors cfg (current (state w)) w))
                    (clock w + Z.max 0 (doorTime cfg)) OpenSettled).
    split.
    + simpl. rewrite clock_openHallDoors. apply in_or_app. right. now left.
    + right. split; reflexivity.
Qed.

Section OneTravel.

(** A travel of [steps] floors that started at time [t0] on floor [c0]
    with step [d], when the header log was [h0]. *)
Variable cfg : config.
Variables steps d c0 t0 : Z.
Variable h0 : list (Z * Z).







End OneTravel.




(** The example of the specification: floor 0, doors open, floor 3
    requested at 1000 ms.  The doors have closed at 1700 ms, the ticks
    come at 2600, 3500 and 4400 ms, and at 4400 ms the car is idle on
    floor 3 with the doors opening. *)
Example three_floors_up :
  exists w, run cfg6 (init cfg6)
                ([Fire; Click 1000 (FloorBtn 2)] ++ repeat Fire 5)
            = Some w /\
            state w = mkCar 3 0 false DoorOpen 3 /\ clock w = 4400 /\
            skipn 2 (headers w) = [(2600, 1); (3500, 2); (4400, 3)] /\
            timers w = [mkTimer 8 5100 OpenSettled].
Proof. eexists. split; [vm_compute; reflexivity|]. repeat split. Qed.



(** * More properties of the page *)

(** ** What stays pending *)

Lemma same_handle l u t :
  NoDup (map tid l) -> In u l -> In t l -> tid u = tid t -> u = t.
Proof.
  induction l as [|a l IH]; [contradiction|].
  simpl. intros Hn Hu Ht Hid. inversion Hn as [|? ? Hnotin Hn']; subst.
  destruct Hu as [-> | Hu], Ht as [-> | Ht]; auto.
  - exfalso. apply Hnotin. rewrite Hid. now apply in_map.
  - exfalso. apply Hnotin. rewrite <- Hid. now apply in_map.
Qed.

Lemma pending_setTimeout_new P c ms w :
  P c = true -> pending P (setTimeout c ms w).
Proof.
  intros Hc. exists (mkTimer (nextId w) (clock w + Z.max 0 ms) c).
  split; [|exact Hc].
  simpl. apply in_or_app. right. left. reflexivity.
Qed.

Lemma pending_setTimeout_old P c ms w :
  pending P w -> pending P (setTimeout c ms w).
Proof.
  intros [t [Ht Hc]]. exists t. split; [|exact Hc].
  simpl. apply in_or_app. now left.
Qed.

Lemma pending_same P w w' :
  timers w' = timers w -> pending P w -> pending P w'.
Proof. intros E [t [Ht Hc]]. exists t. now rewrite E. Qed.

Lemma pending_weaken (P Q : callback -> bool) w :
  (forall c, P c = true -> Q c = true) -> pending P w -> pending Q w.
Proof. intros H [t [Ht Hc]]. exists t. auto. Qed.

Lemma pending_travel P w w' :
  (forall c, P c = true -> isTravel c = true) ->
  travelTimers w' = travelTimers w -> pending P w -> pending P w'.
Proof.
  intros HP E [t [Ht Hc]]. exists t. split; [|exact Hc].
  assert (H : In t (travelTimers w)) by (apply filter_In; auto).
  rewrite <- E in H. apply filter_In in H. tauto.
Qed.

Lemma pending_fire_other P w t :
  queueOk w -> In t (timers w) -> P (cb t) = false ->
  pending P w -> pending P (set_clock (due t) (clearTimeout (tid t) w)).
Proof.
  intros Hq Ht Hc [u [Hu Hcu]]. exists u. split; [|exact Hcu].
  simpl. apply In_cancel. split; [exact Hu|]. intros Hid.
  assert (u = t) by (eapply same_handle; eauto using q_nodup).
  subst. congruence.
Qed.

Lemma isTick_isTravel c : isTick c = true -> isTravel c = true.
Proof. destruct c; simpl; congruence. Qed.

Lemma servesOther_isTravel cur c :
  servesOther cur c = true -> isTravel c = true.
Proof. destruct c as [| |[|target]| |]; simpl; congruence. Qed.

Lemma isTick_servesOther cur c : isTick c = true -> servesOther cur c = true.
Proof. destruct c; simpl; congruence. Qed.

Lemma isTick_keepsDoors c : isTick c = true -> keepsDoors c = true.
Proof. destruct c; simpl; congruence. Qed.

(** ** The direction and the admission flag *)

Lemma awaitsDoors_isTravel c : awaitsDoors c = true -> isTravel c = true.
Proof. destruct c as [| |[|target]| |]; simpl; congruence. Qed.

Lemma directionOk_travel w w' :
  direction (state w') = direction (state w) ->
  moving (state w') = moving (state w) ->
  travelTimers w' = travelTimers w ->
  directionOk w -> directionOk w'.
Proof.
  intros Hd Hm Ht Hw Hdir. rewrite Hd in Hdir. rewrite Hm.
  destruct (Hw Hdir) as [H | H]; [now left | right].
  now apply (pending_travel awaitsDoors w w' awaitsDoors_isTravel).
Qed.

Lemma directionOk_same w w' :
  direction (state w') = direction (state w) ->
  moving (state w') = moving (state w) ->
  timers w' = timers w ->
  directionOk w -> directionOk w'.
Proof.
  intros Hd Hm Ht. apply directionOk_travel; try assumption.
  unfold travelTimers. now rewrite Ht.
Qed.

Lemma directionOk_idle w : direction (state w) = 0 -> directionOk w.
Proof. intros E H. congruence. Qed.

Lemma directionOk_moving w : moving (state w) = true -> directionOk w.
Proof. intros E _. now left. Qed.

Lemma directionOk_openDoors cfg w :
  queueOk w -> directionOk w -> directionOk (openDoors cfg w).
Proof.
  intros Hq. apply directionOk_travel.
  - now rewrite state_openDoors.
  - now rewrite state_openDoors.
  - now apply travelTimers_openDoors.
Qed.

Lemma directionOk_closeDoors_detached cfg w :
  queueOk w -> directionOk w -> directionOk (closeDoors cfg Detached w).
Proof.
  intros Hq. apply directionOk_travel.
  - now rewrite state_closeDoors_detached.
  - now rewrite state_closeDoors_detached.
  - now apply travelTimers_closeDoors_detached.
Qed.

Lemma directionOk_travelLoop cfg steps stp temp i w :
  directionOk w -> directionOk (travelLoop cfg steps stp temp i w).
Proof.
  intros Hw. unfold travelLoop. destruct (i <? steps).
  - intros Hd. destruct (Hw Hd) as [H | H]; [now left | right].
    now apply pending_setTimeout_old.
  - apply directionOk_idle. now rewrite state_arrive.
Qed.

(** Once its doors are closed a request either gives its direction up or
    sets the flag. *)
Lemma directionOk_goToFloor_afterClose cfg target w :
  directionOk (goToFloor_afterClose cfg target w).
Proof.
  unfold goToFloor_afterClose. cbv zeta. destruct (_ =? 0).
  - apply directionOk_idle. now rewrite state_openDoors.
  - apply directionOk_travelLoop. now apply directionOk_moving.
Qed.

Lemma directionOk_closeDoors_awaited cfg target w :
  directionOk (closeDoors cfg (AwaitedByGoToFloor target) w).
Proof.
  unfold closeDoors. cbv zeta. destruct (doors (state (clearDoorTimer w))).
  - intros _. right. now apply pending_setTimeout_new.
  - apply directionOk_goToFloor_afterClose.
Qed.

Lemma directionOk_goToFloor cfg target w :
  directionOk w -> directionOk (goToFloor cfg target w).
Proof.
  intros Hw. unfold goToFloor. cbv zeta. destruct (_ || _).
  - revert Hw. now apply directionOk_same.
  - apply directionOk_closeDoors_awaited.
Qed.

Lemma directionOk_runCall cfg c w :
  queueOk w -> directionOk w -> directionOk (runCall cfg c w).
Proof.
  intros Hq Hw. destruct c; cbn [runCall].
  - now apply directionOk_goToFloor.
  - now apply directionOk_openDoors.
  - now apply directionOk_closeDoors_detached.
Qed.

Lemma directionOk_runCallback cfg c w :
  queueOk w -> (awaitsDoors c = false -> directionOk w) ->
  directionOk (runCallback cfg c w).
Proof.
  intros Hq Hw. destruct c as [| |a|f|steps stp temp i]; cbn [runCallback].
  - destruct (moving (state w)); [now apply Hw|].
    apply directionOk_closeDoors_detached; [assumption | now apply Hw].
  - apply (directionOk_travel w); [| | |now apply Hw].
    + now rewrite state_startDoorAutoCloseTimer.
    + now rewrite state_startDoorAutoCloseTimer.
    + now apply travelTimers_startDoorAutoCloseTimer.
  - destruct a as [|target]; cbn [resume].
    + apply (directionOk_same w); [reflexivity.. | now apply Hw].
    + apply directionOk_goToFloor_afterClose.
  - apply (directionOk_same w); [reflexivity.. | now apply Hw].
  - unfold travelTick. cbv zeta. apply directionOk_travelLoop.
    apply (directionOk_same w); [reflexivity.. | now apply Hw].
Qed.

Lemma directionOk_step cfg w i w' :
  queueOk w -> directionOk w -> step cfg w i = Some w' -> directionOk w'.
Proof.
  intros Hq Hw. destruct i as [|t c|t b]; simpl.
  - destruct (nextTimer (timers w)) as [tm|] eqn:E; [|discriminate].
    intros H; inversion H; subst.
    apply directionOk_runCallback; [now apply queueOk_fire|].
    intros Hc Hd. destruct (Hw Hd) as [Hm | Hp]; [now left | right].
    apply pending_fire_other; auto using nextTimer_In.
  - destruct (canHappenAt t w) eqn:E; [|discriminate].
    intros H; inversion H; subst.
    apply directionOk_runCall; [now apply queueOk_set_clock|].
    revert Hw. now apply directionOk_same.
  - destruct (canHappenAt t w) eqn:E; [|discriminate].
    destruct (clickTarget cfg b w) as [c|]; [|discriminate].
    intros H; inversion H; subst.
    apply directionOk_runCall; [now apply queueOk_set_clock|].
    revert Hw. now apply directionOk_same.
Qed.

Lemma directionOk_run cfg ins : forall w w',
  queueOk w -> directionOk w -> run cfg w ins = Some w' -> directionOk w'.
Proof.
  induction ins as [|i ins IH]; simpl; intros w w' Hq Hw H.
  - inversion H; subst; assumption.
  - destruct (step cfg w i) as [w1|] eqn:E; [|discriminate].
    eapply IH; [| |eassumption].
    + eapply queueOk_step; eassumption.
    + eapply directionOk_step; eassumption.
Qed.

Lemma directionOk_init cfg : directionOk (init cfg).
Proof.
  apply directionOk_idle. unfold init, buildControls.
  now rewrite state_openDoors.
Qed.

(** C7 (as amended): in every reachable world a direction is shown only
    while [moving] is set or a [goToFloor] waits for its doors to close
    (line 284); put the other way round, [direction] is 0 whenever
    [moving] is false and no request is in its door-closing wait. *)
Theorem direction_only_while_request_pending cfg ins w :
  run cfg (init cfg) ins = Some w ->
  (direction (state w) <> 0 ->
   moving (state w) = true \/ pending awaitsDoors w) /\
  (moving (state w) = false -> ~ pending awaitsDoors w ->
   direction (state w) = 0).
Proof.
  intros Hrun.
  assert (Hw : directionOk w).
  { eapply directionOk_run; [apply queueOk_init | apply directionOk_init
                            | exact Hrun]. }
  split; [exact Hw|].
  intros Hm Hno. destruct (Z.eq_dec (direction (state w)) 0) as [E | N];
    [exact E|].
  destruct (Hw N) as [H | H]; [congruence | contradiction].
Qed.

Lemma direction_only_while_request_pending_witness :
  (exists w, run cfg6 (init cfg6) requestWithOpenDoors = Some w /\
             direction (state w) = 1 /\ moving (state w) = false /\
             pending awaitsDoors w) /\
  (exists w, run cfg6 (init cfg6) (twoRequests ++ repeat Fire 3) = Some w /\
             moving (state w) = false /\ pending isTick w /\
             direction (state w) = 0).
Proof.
  split.
  - let r := eval vm_compute in (run cfg6 (init cfg6) requestWithOpenDoors) in
    match r with
    | Some ?w =>
        exists w; split; [vm_compute; reflexivity|];
        split; [reflexivity|]; split; [reflexivity|];
        destruct (direction_only_while_request_pending
                    cfg6 requestWithOpenDoors w
                    ltac:(vm_compute; reflexivity)) as [H _];
        destruct H as [H | H];
          [vm_compute; discriminate | discriminate H | exact H]
    end.
  - let r := eval vm_compute in
      (run cfg6 (init cfg6) (twoRequests ++ repeat Fire 3)) in
    match r with
    | Some ?w =>
        exists w; split; [vm_compute; reflexivity|];
        split; [reflexivity|];
        split; [eexists; split; [left; reflexivity | reflexivity]|];
        apply (direction_only_while_request_pending
                 cfg6 (twoRequests ++ repeat Fire 3) w
                 ltac:(vm_compute; reflexivity));
          [reflexivity|];
        intros [u [Hu Hc]]; vm_compute in Hu;
        repeat (destruct Hu as [<- | Hu]; [discriminate Hc|]);
        contradiction
    end.
Defined.

(** ** The panel after [refreshButtons] *)

Lemma length_refreshFlags cfg s fs : forall j old,
  length (refreshFlags cfg s j fs old) = length old.
Proof.
  induction fs as [|f fs IH]; intros j [|o old]; simpl; auto.
Qed.

Lemma refreshFlags_moving cfg s fs : forall old j0 i,
  moving s = true ->
  (i < length fs)%nat -> (i < length old)%nat ->
  tracked cfg (j0 + i) = true ->
  nth_error (refreshFlags cfg s j0 fs old) i = Some true.
Proof.
  induction fs as [|f fs IH]; intros [|o old] j0 i Hm Hf Ho Ht;
    simpl in *; try lia.
  destruct i as [|i]; simpl.
  - rewrite Nat.add_0_r in Ht. now rewrite Ht, Hm.
  - apply IH; try lia; [assumption|].
    now replace (S j0 + i)%nat with (j0 + S i)%nat by lia.
Qed.

Lemma tracked_bound cfg j : tracked cfg j = true -> (j < 6)%nat.
Proof.
  unfold tracked. destruct (nth_error (buttonFloors cfg) j) eqn:E;
    [|discriminate].
  intros _.
  assert (H : (j < length (buttonFloors cfg))%nat)
    by (apply nth_error_Some; rewrite E; discriminate).
  exact H.
Qed.

Lemma fresh_locked cfg w :
  floorButtonsFresh cfg w ->
  length (floorDisabled (panel w)) = 6%nat ->
  moving (state w) = true -> floorButtonsLocked cfg w.
Proof.
  intros Hf Hl Hm j Hj. rewrite Hf.
  pose proof (tracked_bound cfg j Hj).
  apply refreshFlags_moving; simpl; try lia; assumption.
Qed.

Lemma fresh_refreshButtons cfg w :
  floorButtonsFresh cfg (refreshButtons cfg w).
Proof.
  unfold floorButtonsFresh, refreshButtons.
  cbn -[refreshFlags buttonFloors]. now rewrite refreshFlags_twice.
Qed.

Lemma doorButtonsOk_refreshButtons cfg w :
  doorButtonsOk (refreshButtons cfg w).
Proof. repeat split. Qed.

Lemma count_refreshButtons cfg w :
  length (floorDisabled (panel (refreshButtons cfg w)))
  = length (floorDisabled (panel w)).
Proof.
  unfold refreshButtons. cbn -[refreshFlags buttonFloors].
  apply length_refreshFlags.
Qed.

(** Three ways to be in order: the handler ended in a refresh of the
    buttons; it touched neither [state] nor the panel; or it moved the
    car one floor and armed the next tick. *)

Lemma pageOk_refreshed cfg w1 w :
  state w = state w1 ->
  panel w = panel (refreshButtons cfg w1) ->
  length (floorDisabled (panel w1)) = 6%nat ->
  queueOk w ->
  (moving (state w) = true -> pending isTick w) ->
  (doors (state w) = DoorOpen -> pending keepsDoors w) ->
  (selected (state w) <> current (state w) ->
   pending (servesOther (current (state w))) w) ->
  pageOk cfg w.
Proof.
  intros Hs Hp Hl Hq Hm Hd Hsel.
  assert (Hfresh : floorButtonsFresh cfg w).
  { unfold floorButtonsFresh. rewrite Hp, Hs.
    apply (fresh_refreshButtons cfg w1). }
  assert (Hcount : length (floorDisabled (panel w)) = 6%nat)
    by (rewrite Hp, count_refreshButtons; exact Hl).
  constructor; auto.
  - unfold doorButtonsOk. rewrite Hp, Hs.
    apply (doorButtonsOk_refreshButtons cfg w1).
  - intros Hmv. now apply fresh_locked.
Qed.

Lemma pageOk_unchanged cfg w w' :
  pageOk cfg w ->
  state w' = state w -> panel w' = panel w -> queueOk w' ->
  (pending isTick w -> pending isTick w') ->
  (doors (state w) = DoorOpen -> pending keepsDoors w') ->
  (pending (servesOther (current (state w))) w ->
   pending (servesOther (current (state w))) w') ->
  pageOk cfg w'.
Proof.
  intros [Hq Hm Hd Hsel Hb Hc Hl Hf] Hs Hp Hq' Ht Hk Hso.
  unfold doorButtonsOk, floorButtonsLocked, floorButtonsFresh in *.
  constructor; unfold doorButtonsOk, floorButtonsLocked, floorButtonsFresh;
    rewrite ?Hs, ?Hp; auto.
  destruct Hf as [Hf | Hf]; auto.
Qed.

Lemma pageOk_ticking cfg w w' :
  pageOk cfg w ->
  moving (state w') = moving (state w) ->
  doors (state w') = doors (state w) ->
  selected (state w') = selected (state w) ->
  panel w' = panel w -> queueOk w' ->
  pending isTick w' ->
  pageOk cfg w'.
Proof.
  intros [Hq Hm Hd Hsel Hb Hc Hl Hf] Em Ed Es Hp Hq' Ht.
  unfold doorButtonsOk, floorButtonsLocked in *.
  constructor; unfold doorButtonsOk, floorButtonsLocked;
    rewrite ?Em, ?Ed, ?Es, ?Hp; auto.
  - intros _. revert Ht. apply pending_weaken, isTick_keepsDoors.
  - intros _. revert Ht. apply pending_weaken, isTick_servesOther.
Qed.

(** ** Every handler leaves the page in order *)

Lemma openDoors_open cfg w :
  doors (state w) = DoorOpen ->
  openDoors cfg w = refreshButtons cfg (startDoorAutoCloseTimer w).
Proof. intros Hd. unfold openDoors. now rewrite Hd. Qed.

Lemma openDoors_closed cfg w :
  doors (state w) = DoorClosed ->
  openDoors cfg w =
  setTimeout OpenSettled (doorTime cfg)
    (refreshButtons cfg
       (upd_state (set_doors DoorOpen)
          (emit CarDoorsOpening (openHallDoors cfg (current (state w)) w)))).
Proof. intros Hd. unfold openDoors. now rewrite Hd. Qed.

Lemma panel_openHallDoors cfg f w : panel (openHallDoors cfg f w) = panel w.
Proof. unfold openHallDoors. destruct (hasHall cfg f); reflexivity. Qed.

Lemma panel_closeHallDoors cfg f w : panel (closeHallDoors cfg f w) = panel w.
Proof. unfold closeHallDoors. destruct (hasHall cfg f); reflexivity. Qed.

Lemma pending_doorOpenRan cfg w : doorOpenRan cfg w -> pending keepsDoors w.
Proof.
  intros [_ [t [Ht [[Hc _] | [Hc _]]]]]; exists t; rewrite Hc; auto.
Qed.

Lemma pageOk_openDoors cfg w :
  queueOk w -> length (floorDisabled (panel w)) = 6%nat ->
  (moving (state w) = true -> pending isTick w) ->
  (selected (state w) <> current (state w) ->
   pending (servesOther (current (state w))) w) ->
  pageOk cfg (openDoors cfg w).
Proof.
  intros Hq Hl Hm Hsel.
  assert (Hobl :
    queueOk (openDoors cfg w) /\
    (moving (state (openDoors cfg w)) = true ->
     pending isTick (openDoors cfg w)) /\
    (doors (state (openDoors cfg w)) = DoorOpen ->
     pending keepsDoors (openDoors cfg w)) /\
    (selected (state (openDoors cfg w)) <> current (state (openDoors cfg w)) ->
     pending (servesOther (current (state (openDoors cfg w))))
             (openDoors cfg w))).
  { split; [now apply queueOk_openDoors|].
    rewrite state_openDoors. cbn [moving selected current set_doors].
    split; [|split].
    - intros H. eapply pending_travel;
        [apply isTick_isTravel | now apply travelTimers_openDoors | auto].
    - intros _. apply (pending_doorOpenRan cfg), doorOpenRan_openDoors.
    - intros H. eapply pending_travel;
        [apply servesOther_isTravel | now apply travelTimers_openDoors | auto]. }
  destruct Hobl as [O1 [O2 [O3 O4]]].
  destruct (doors (state w)) eqn:Hd.
  - rewrite (openDoors_open cfg w Hd) in *.
    apply (pageOk_refreshed cfg (startDoorAutoCloseTimer w)); auto.
    change (panel (startDoorAutoCloseTimer w)) with (panel (clearDoorTimer w)).
    now rewrite panel_clearDoorTimer.
  - rewrite (openDoors_closed cfg w Hd) in *.
    apply (pageOk_refreshed cfg
             (upd_state (set_doors DoorOpen)
                (emit CarDoorsOpening
                   (openHallDoors cfg (current (state w)) w)))); auto.
    cbn [panel upd_state emit]. now rewrite panel_openHallDoors.
Qed.

Lemma pageOk_closeDoors_detached cfg w :
  queueOk w -> length (floorDisabled (panel w)) = 6%nat ->
  (moving (state w) = true -> pending isTick w) ->
  (selected (state w) <> current (state w) ->
   pending (servesOther (current (state w))) w) ->
  pageOk cfg (closeDoors cfg Detached w).
Proof.
  intros Hq Hl Hm Hsel.
  assert (Hobl :
    queueOk (closeDoors cfg Detached w) /\
    (moving (state (closeDoors cfg Detached w)) = true ->
     pending isTick (closeDoors cfg Detached w)) /\
    (doors (state (closeDoors cfg Detached w)) = DoorOpen ->
     pending keepsDoors (closeDoors cfg Detached w)) /\
    (selected (state (closeDoors cfg Detached w))
     <> current (state (closeDoors cfg Detached w)) ->
     pending (servesOther (current (state (closeDoors cfg Detached w))))
             (closeDoors cfg Detached w))).
  { split; [now apply queueOk_closeDoors|].
    rewrite state_closeDoors_detached. cbn [moving selected current doors set_doors].
    split; [|split].
    - intros H. eapply pending_travel;
        [apply isTick_isTravel | now apply travelTimers_closeDoors_detached
        | auto].
    - discriminate.
    - intros H. eapply pending_travel;
        [apply servesOther_isTravel
        | now apply travelTimers_closeDoors_detached | auto]. }
  destruct Hobl as [O1 [O2 [O3 O4]]].
  destruct (doors (state w)) eqn:Hd.
  - rewrite (closeDoors_open cfg Detached w Hd) in *.
    apply (pageOk_refreshed cfg
             (upd_state (set_doors DoorClosed)
                (emit CarDoorsClosing
                   (closeHallDoors cfg (current (state w))
                                   (clearDoorTimer w))))); auto.
    cbn [panel upd_state emit].
    now rewrite panel_closeHallDoors, panel_clearDoorTimer.
  - rewrite (closeDoors_closed cfg Detached w Hd) in *. cbn [resume] in *.
    apply (pageOk_refreshed cfg (clearDoorTimer w)); auto.
    now rewrite panel_clearDoorTimer.
Qed.

Lemma pageOk_travel_start cfg target w :
  queueOk w -> length (floorDisabled (panel w)) = 6%nat ->
  target <> current (state w) ->
  pageOk cfg (goToFloor_afterClose cfg target w).
Proof.
  intros Hq Hl Hne. rewrite goToFloor_afterClose_travel by assumption.
  apply (pageOk_refreshed cfg (upd_state (set_moving true) w)); auto.
  - apply queueOk_setTimeout; [reflexivity|]. auto with queue.
  - intros _. now apply pending_setTimeout_new.
  - intros _. now apply pending_setTimeout_new.
  - intros _. now apply pending_setTimeout_new.
Qed.

Lemma pageOk_afterClose_same cfg target w :
  queueOk w -> length (floorDisabled (panel w)) = 6%nat ->
  target = current (state w) ->
  (moving (state w) = true -> pending isTick w) ->
  (selected (state w) <> current (state w) ->
   pending (servesOther (current (state w))) w) ->
  pageOk cfg (goToFloor_afterClose cfg target w).
Proof.
  intros Hq Hl He Hm Hsel. rewrite goToFloor_afterClose_same by assumption.
  apply pageOk_openDoors; auto with queue.
Qed.

Lemma pageOk_closeDoors_awaited cfg target w :
  queueOk w -> length (floorDisabled (panel w)) = 6%nat ->
  moving (state w) = false -> target <> current (state w) ->
  pageOk cfg (closeDoors cfg (AwaitedByGoToFloor target) w).
Proof.
  intros Hq Hl Hm Hne. destruct (doors (state w)) eqn:Hd.
  - rewrite closeDoors_open by assumption.
    apply (pageOk_refreshed cfg
             (upd_state (set_doors DoorClosed)
                (emit CarDoorsClosing
                   (closeHallDoors cfg (current (state w))
                                   (clearDoorTimer w))))); auto.
    + cbn [panel upd_state emit].
      now rewrite panel_closeHallDoors, panel_clearDoorTimer.
    + apply queueOk_setTimeout; [reflexivity|]. auto 10 with queue.
    + cbn [state setTimeout refreshButtons emit set_panel upd_state moving
           set_doors].
      rewrite state_closeHallDoors, state_clearDoorTimer. congruence.
    + discriminate.
    + intros _. apply pending_setTimeout_new.
      cbn [state setTimeout refreshButtons emit set_panel upd_state current
           set_doors servesOther].
      rewrite state_closeHallDoors, state_clearDoorTimer.
      apply negb_true_iff. now apply Z.eqb_neq.
  - rewrite closeDoors_closed by assumption. cbn [resume].
    apply pageOk_travel_start; auto with queue.
    + rewrite count_refreshButtons. now rewrite panel_clearDoorTimer.
    + cbn [state refreshButtons emit set_panel].
      now rewrite state_clearDoorTimer.
Qed.

Lemma pageOk_goToFloor cfg target w :
  pageOk cfg w -> pageOk cfg (goToFloor cfg target w).
Proof.
  intros Hp. pose proof Hp as [Hq Hm Hd Hsel Hb Hc Hl Hf].
  destruct (moving (state w) || (target =? current (state w))) eqn:E.
  - rewrite goToFloor_dropped by assumption.
    apply (pageOk_refreshed cfg (upd_state (set_selected target) w)); auto.
    + auto with queue.
    + cbn [state refreshButtons emit set_panel upd_state selected current
           set_selected].
      intros Hne. destruct (moving (state w)) eqn:Em.
      * eapply pending_weaken; [apply isTick_servesOther|]. now apply Hm.
      * simpl in E. apply Z.eqb_eq in E. contradiction.
  - apply orb_false_iff in E. destruct E as [Em En]. apply Z.eqb_neq in En.
    rewrite goToFloor_admitted by assumption.
    apply pageOk_closeDoors_awaited; auto 10 with queue.
    cbn [panel updateHeader emit upd_state].
    now rewrite count_refreshButtons.
Qed.

Lemma pageOk_runCall cfg c w : pageOk cfg w -> pageOk cfg (runCall cfg c w).
Proof.
  intros Hp. destruct c; cbn [runCall].
  - now apply pageOk_goToFloor.
  - destruct Hp. now apply pageOk_openDoors.
  - destruct Hp. now apply pageOk_closeDoors_detached.
Qed.

Lemma pending_startDoorAutoCloseTimer_new P w :
  P AutoClose = true -> pending P (startDoorAutoCloseTimer w).
Proof.
  intros HP.
  exists (mkTimer (nextId (clearDoorTimer w))
                  (clock (clearDoorTimer w) + Z.max 0 doorAutoCloseMs)
                  AutoClose).
  split; [|exact HP]. simpl. apply in_or_app. right. now left.
Qed.

Lemma pageOk_fire cfg w t :
  pageOk cfg w -> nextTimer (timers w) = Some t ->
  pageOk cfg (runCallback cfg (cb t)
                (set_clock (due t) (clearTimeout (tid t) w))).
Proof.
  intros Hp Hn. pose proof Hp as [Hq Hm Hd Hsel Hb Hc Hl Hf].
  pose proof (nextTimer_In _ _ Hn) as Hin.
  set (w0 := set_clock (due t) (clearTimeout (tid t) w)).
  assert (Hq0 : queueOk w0) by now apply queueOk_fire.
  assert (Hpers : forall P, P (cb t) = false -> pending P w -> pending P w0)
    by (intros P HP; now apply pending_fire_other).
  destruct (cb t) as [| |[|target]|f|steps stp temp i] eqn:Ecb;
    cbn [runCallback resume].
  - (* the dwell timer *)
    destruct (moving (state w0)) eqn:Em.
    + apply (pageOk_unchanged cfg w);
        [exact Hp | reflexivity | reflexivity | exact Hq0 | | | ].
      * now apply Hpers.
      * intros _. eapply pending_weaken; [apply isTick_keepsDoors|].
        apply Hpers; [reflexivity|]. now apply Hm.
      * now apply Hpers.
    + apply pageOk_closeDoors_detached; [exact Hq0 | exact Hc | | ].
      * congruence.
      * intros Hne. apply Hpers; [reflexivity|]. now apply Hsel.
  - (* the doors have opened *)
    apply (pageOk_unchanged cfg w);
      [exact Hp | | | now apply queueOk_startDoorAutoCloseTimer | | | ].
    + now rewrite state_startDoorAutoCloseTimer.
    + change (panel (startDoorAutoCloseTimer w0)) with (panel (clearDoorTimer w0)).
      now rewrite panel_clearDoorTimer.
    + intros H. eapply pending_travel;
        [apply isTick_isTravel
        | now apply travelTimers_startDoorAutoCloseTimer | auto].
    + intros _. now apply pending_startDoorAutoCloseTimer_new.
    + intros H. eapply pending_travel;
        [apply servesOther_isTravel
        | now apply travelTimers_startDoorAutoCloseTimer | auto].
  - (* the doors have closed, nobody waits *)
    apply (pageOk_unchanged cfg w);
      [exact Hp | reflexivity | reflexivity | now apply queueOk_emit | | | ].
    + intros H. eapply pending_same; [|apply Hpers; auto]. reflexivity.
    + intros H. eapply pending_same; [|apply Hpers; auto]. reflexivity.
    + intros H. eapply pending_same; [|apply Hpers; auto]. reflexivity.
  - (* the doors have closed, a request goes on *)
    destruct (Z.eq_dec target (current (state w))) as [He | Hne].
    + apply pageOk_afterClose_same;
        [now apply queueOk_emit | exact Hc | exact He | | ].
      * intros H. eapply pending_same; [|apply Hpers; auto]. reflexivity.
      * intros H. eapply pending_same; [|apply Hpers; auto]; [reflexivity|].
        cbn [servesOther]. apply negb_false_iff. now apply Z.eqb_eq.
    + apply pageOk_travel_start;
        [now apply queueOk_emit | exact Hc | exact Hne].
  - (* the landing doors have closed *)
    apply (pageOk_unchanged cfg w);
      [exact Hp | reflexivity | reflexivity | now apply queueOk_emit | | | ].
    + intros H. eapply pending_same; [|apply Hpers; auto]. reflexivity.
    + intros H. eapply pending_same; [|apply Hpers; auto]. reflexivity.
    + intros H. eapply pending_same; [|apply Hpers; auto]. reflexivity.
  - (* a tick *)
    unfold travelTick. cbv zeta. unfold travelLoop.
    destruct (i + 1 <? steps).
    + apply (pageOk_ticking cfg w);
        [exact Hp | reflexivity | reflexivity | reflexivity | reflexivity
        | | ].
      * apply queueOk_setTimeout; [reflexivity|]. auto with queue.
      * now apply pending_setTimeout_new.
    + unfold arrive. cbv zeta. apply pageOk_openDoors.
      * auto 10 with queue.
      * now rewrite count_refreshButtons.
      * discriminate.
      * intros H. exfalso. apply H. reflexivity.
Qed.

Lemma pageOk_set_clock cfg t w :
  canHappenAt t w = true -> pageOk cfg w -> pageOk cfg (set_clock t w).
Proof.
  intros Hc Hp. apply (pageOk_unchanged cfg w); auto.
  - apply queueOk_set_clock; [assumption | apply Hp].
  - now apply (pg_doors cfg w Hp).
Qed.

Lemma pageOk_step cfg w i w' :
  pageOk cfg w -> step cfg w i = Some w' -> pageOk cfg w'.
Proof.
  intros Hp. destruct i as [|t c|t b]; simpl.
  - destruct (nextTimer (timers w)) as [tm|] eqn:E; [|discriminate].
    intros H; inversion H; subst. now apply pageOk_fire.
  - destruct (canHappenAt t w) eqn:E; [|discriminate].
    intros H; inversion H; subst.
    apply pageOk_runCall. now apply pageOk_set_clock.
  - destruct (canHappenAt t w) eqn:E; [|discriminate].
    destruct (clickTarget cfg b w) as [c|]; [|discriminate].
    intros H; inversion H; subst.
    apply pageOk_runCall. now apply pageOk_set_clock.
Qed.

Lemma pageOk_run cfg ins : forall w w',
  pageOk cfg w -> run cfg w ins = Some w' -> pageOk cfg w'.
Proof.
  induction ins as [|i ins IH]; simpl; intros w w' Hp H.
  - inversion H; subst; assumption.
  - destruct (step cfg w i) as [w1|] eqn:E; [|discriminate].
    eapply IH; [|eassumption]. eapply pageOk_step; eassumption.
Qed.

Lemma pageOk_init cfg : pageOk cfg (init cfg).
Proof.
  unfold init, buildControls. apply pageOk_openDoors.
  - auto using queueOk_world0 with queue.
  - now rewrite !count_refreshButtons.
  - discriminate.
  - intros H. exfalso. apply H. reflexivity.
Qed.

Lemma reachable_pageOk cfg w : reachable cfg w -> pageOk cfg w.
Proof.
  intros [ins H]. eapply pageOk_run; [apply pageOk_init | eassumption].
Qed.

(** ** Left alone, the page comes to rest *)





Section TravelMeasure.

(** A measure that counts travel sequences only. *)
Variable f : callback -> nat.
Hypothesis f_dwell : f AutoClose = 0%nat.
Hypothesis f_opened : f OpenSettled = 0%nat.
Hypothesis f_closed : f (CloseSettled Detached) = 0%nat.
Hypothesis f_hall : forall x, f (HallSettled x) = 0%nat.









End TravelMeasure.




Lemma reachable_direction cfg w :
  reachable cfg w -> direction (state w) <> 0 -> pending isTravel w.
Proof.
  intros [ins Hrun] Hd. apply travelPending_iff.
  eapply dir_run; try eassumption.
  - apply queueOk_init.
  - unfold init, buildControls. rewrite state_openDoors. simpl. congruence.
Qed.

Lemma not_pending_atRest P w : atRest w -> ~ pending P w.
Proof. intros E [t [Ht _]]. rewrite E in Ht. contradiction. Qed.

Lemma rest_facts cfg w :
  reachable cfg w -> atRest w ->
  state w = mkCar (current (state w)) 0 false DoorClosed (current (state w)) /\
  panel w = panel (refreshButtons cfg w).
Proof.
  intros Hr Hrest. pose proof (reachable_pageOk cfg w Hr) as Hp.
  destruct Hp as [Hq Hm Hd Hsel Hb Hc Hl Hf].
  assert (Em : moving (state w) = false).
  { destruct (moving (state w)); [|reflexivity].
    exfalso. apply (not_pending_atRest isTick w Hrest). auto. }
  assert (Ed : doors (state w) = DoorClosed).
  { destruct (doors (state w)); [|reflexivity].
    exfalso. apply (not_pending_atRest keepsDoors w Hrest). auto. }
  assert (Es : selected (state w) = current (state w)).
  { destruct (Z.eq_dec (selected (state w)) (current (state w))); [assumption|].
    exfalso.
    apply (not_pending_atRest (servesOther (current (state w))) w Hrest). auto. }
  assert (Edir : direction (state w) = 0).
  { destruct (Z.eq_dec (direction (state w)) 0); [assumption|].
    exfalso. apply (not_pending_atRest isTravel w Hrest).
    now apply (reachable_direction cfg). }
  split.
  - destruct (state w); simpl in *; congruence.
  - destruct Hf as [Hf | Hf];
      [|exfalso; now apply (not_pending_atRest isTick w Hrest)].
    destruct Hb as [B1 [B2 B3]]. unfold floorButtonsFresh in Hf.
    unfold refreshButtons. cbn -[refreshFlags buttonFloors].
    rewrite <- Hf, <- B1, <- B2, <- B3. now destruct (panel w).
Qed.

(** X1: when nothing is pending in a reachable world, the car is idle
    with no direction shown, the doors are closed, the highlight is on
    the floor of the car, and every button is enabled or disabled as
    [refreshButtons] would set it for that state. *)
Theorem at_rest_idle_closed cfg ins w :
  run cfg (init cfg) ins = Some w ->
  atRest w ->
  moving (state w) = false /\ direction (state w) = 0 /\
  doors (state w) = DoorClosed /\
  selected (state w) = current (state w) /\
  panel w = panel (refreshButtons cfg w).
Proof.
  intros Hrun Hrest.
  destruct (rest_facts cfg w (ex_intro _ ins Hrun) Hrest) as [Hs Hp].
  rewrite Hs at 1 2 3 4. repeat split. exact Hp.
Qed.

Lemma at_rest_idle_closed_witness :
  exists w, run cfg6 (init cfg6) idleClosed = Some w /\
            moving (state w) = false /\ doors (state w) = DoorClosed /\
            panel w = panel (refreshButtons cfg6 w).
Proof.
  eexists. split; [vm_compute; reflexivity|].
  match goal with
  | |- moving (state ?w) = _ /\ _ =>
      destruct (at_rest_idle_closed cfg6 idleClosed w
                  ltac:(vm_compute; reflexivity) eq_refl)
        as [H1 [_ [H3 [_ H5]]]]
  end.
  repeat split; assumption.
Defined.




(** X3: nothing is left hanging in a reachable world: while [moving] is
    set a floor loop is suspended; while the doors are open a door
    settle, the dwell timer or a travel sequence is pending; and while
    the highlight is not on the floor of the car a travel sequence that
    will put it there is pending. *)
Theorem nothing_left_hanging cfg ins w :
  run cfg (init cfg) ins = Some w ->
  (moving (state w) = true -> pending isTick w) /\
  (doors (state w) = DoorOpen -> pending keepsDoors w) /\
  (selected (state w) <> current (state w) ->
   pending (servesOther (current (state w))) w).
Proof.
  intros Hrun.
  destruct (reachable_pageOk cfg w (ex_intro _ ins Hrun)).
  auto.
Qed.

Lemma nothing_left_hanging_witness :
  exists w, run cfg6 (init cfg6) openWhileClosing = Some w /\
            pending isTick w /\ pending keepsDoors w /\
            pending (servesOther (current (state w))) w.
Proof.
  eexists. split; [vm_compute; reflexivity|].
  match goal with
  | |- pending isTick ?w /\ _ =>
      destruct (nothing_left_hanging cfg6 openWhileClosing w
                  ltac:(vm_compute; reflexivity)) as [H1 [H2 H3]]
  end.
  split; [apply H1; reflexivity|].
  split; [apply H2; reflexivity|].
  apply H3. vm_compute. discriminate.
Defined.

(** ** What the buttons allow *)

(** X4: in every reachable world the door buttons and the highlight are
    as [refreshButtons] computes them from the present state (Open is
    disabled iff moving or doors open, Close iff moving or doors closed,
    the highlight is [selected]); and unless a floor loop is suspended,
    so are the floor buttons. *)
Theorem panel_follows_state cfg ins w :
  run cfg (init cfg) ins = Some w ->
  openDisabled (panel w)
  = moving (state w) || doorIsOpen (doors (state w)) /\
  closeDisabled (panel w)
  = moving (state w) || negb (doorIsOpen (doors (state w))) /\
  activeFloor (panel w) = selected (state w) /\
  (~ pending isTick w ->
   floorDisabled (panel w)
   = refreshFlags cfg (state w) 0 (buttonFloors cfg)
                  (floorDisabled (panel w))).
Proof.
  intros Hrun.
  destruct (reachable_pageOk cfg w (ex_intro _ ins Hrun))
    as [_ _ _ _ [B1 [B2 B3]] _ _ Hf].
  repeat (split; [assumption|]).
  intros Hno. destruct Hf as [Hf | Hf]; [exact Hf | contradiction].
Qed.

Lemma panel_follows_state_witness :
  exists w, run cfg6 (init cfg6) toFloor4 = Some w /\
            openDisabled (panel w) = true /\
            floorDisabled (panel w) = [false; true; false; false; false; false].
Proof.
  eexists. split; [vm_compute; reflexivity|].
  match goal with
  | |- openDisabled (panel ?w) = _ /\ _ =>
      destruct (panel_follows_state cfg6 toFloor4 w
                  ltac:(vm_compute; reflexivity)) as [H1 [_ [_ H4]]]
  end.
  split; [rewrite H1; reflexivity|].
  rewrite H4; [reflexivity|].
  intros [t [Ht Hc]]. vm_compute in Ht.
  destruct Ht as [<- | []]. discriminate.
Defined.

(** With six floors or more every floor button is one [floorBtnEls]
    holds, and its floor exists. *)
Lemma tracked_all cfg j :
  6 <= floors cfg -> (j < 6)%nat -> tracked cfg j = true.
Proof.
  intros Hf Hj. unfold tracked, buttonFloors.
  do 6 (destruct j as [|j];
        [cbn [nth_error skipn existsb]; apply andb_true_iff; split;
         [unfold hasHall; apply andb_true_iff; split;
          [apply Z.leb_le | apply Z.ltb_lt]; lia
         |apply negb_true_iff;
          repeat (apply orb_false_iff; split);
          try reflexivity; apply Z.eqb_neq; lia]|]).
  lia.
Qed.

(** X5: while [moving] is set in a reachable world, a click on Open, on
    Close, or on a floor button held in [floorBtnEls] does not reach its
    handler; with six floors or more no click on the panel does. *)
Theorem no_click_while_moving cfg ins w t b :
  run cfg (init cfg) ins = Some w ->
  moving (state w) = true ->
  match step cfg w (Click t b) with
  | None => True
  | Some _ => exists j, b = FloorBtn j /\ tracked cfg j = false
  end /\
  (6 <= floors cfg -> step cfg w (Click t b) = None).
Proof.
  intros Hrun Hm.
  destruct (reachable_pageOk cfg w (ex_intro _ ins Hrun))
    as [_ _ _ _ [B1 [B2 _]] Hc Hl _].
  specialize (Hl Hm). rewrite Hm in B1, B2. simpl in B1, B2.
  assert (Hmain : forall c, clickTarget cfg b w = Some c ->
                            exists j, b = FloorBtn j /\ tracked cfg j = false).
  { intros c. destruct b as [j| |]; simpl.
    - destruct (nth_error (buttonFloors cfg) j) eqn:E1; [|discriminate].
      destruct (nth_error (floorDisabled (panel w)) j) as [[|]|] eqn:E2;
        try discriminate.
      intros _. exists j. split; [reflexivity|].
      destruct (tracked cfg j) eqn:Et; [|reflexivity].
      rewrite (Hl j Et) in E2. discriminate.
    - now rewrite B1.
    - now rewrite B2. }
  split.
  - simpl. destruct (canHappenAt t w); [|exact I].
    destruct (clickTarget cfg b w) as [c|] eqn:E; [|exact I]. eauto.
  - intros Hf. simpl. destruct (canHappenAt t w); [|reflexivity].
    destruct (clickTarget cfg b w) as [c|] eqn:E; [|reflexivity].
    destruct (Hmain c eq_refl) as [j [-> Hj]]. simpl in E.
    destruct (nth_error (buttonFloors cfg) j) eqn:E1; [|discriminate].
    assert (Hlt : (j < length (buttonFloors cfg))%nat)
      by (apply nth_error_Some; rewrite E1; discriminate).
    rewrite tracked_all in Hj by (auto; exact Hlt). discriminate.
Qed.

Lemma no_click_while_moving_witness :
  exists w, run cfg6 (init cfg6) (twoRequests ++ [Fire; Fire]) = Some w /\
            moving (state w) = true /\
            step cfg6 w (Click 6900 (FloorBtn 3)) = None.
Proof.
  eexists. split; [vm_compute; reflexivity|]. split; [reflexivity|].
  match goal with
  | |- step cfg6 ?w _ = None =>
      destruct (no_click_while_moving cfg6 (twoRequests ++ [Fire; Fire]) w
                  6900 (FloorBtn 3) ltac:(vm_compute; reflexivity) eq_refl)
        as [_ H]
  end.
  apply H. vm_compute. discriminate.
Defined.

(** X6: a click on Open reaches [openDoors] only when the car is idle
    with closed doors, and a click on Close reaches [closeDoors] only
    when it is idle with open doors: a click never finds the doors
    already in the state it asks for. *)
Theorem door_clicks_find_work cfg ins w t b w' :
  run cfg (init cfg) ins = Some w ->
  step cfg w (Click t b) = Some w' ->
  (b = OpenBtn ->
   moving (state w) = false /\ doors (state w) = DoorClosed /\
   doors (state w') = DoorOpen) /\
  (b = CloseBtn ->
   moving (state w) = false /\ doors (state w) = DoorOpen /\
   doors (state w') = DoorClosed).
Proof.
  intros Hrun Hstep.
  destruct (reachable_pageOk cfg w (ex_intro _ ins Hrun))
    as [_ _ _ _ [B1 [B2 _]] _ _ _].
  simpl in Hstep. destruct (canHappenAt t w); [|discriminate].
  split; intros ->; simpl in Hstep.
  - destruct (openDisabled (panel w)) eqn:E; [discriminate|].
    inversion Hstep; subst w'. symmetry in B1. apply orb_false_iff in B1.
    destruct B1 as [Hm Hd]. split; [exact Hm|].
    split; [now destruct (doors (state w))|].
    now rewrite state_openDoors.
  - destruct (closeDisabled (panel w)) eqn:E; [discriminate|].
    inversion Hstep; subst w'. symmetry in B2. apply orb_false_iff in B2.
    destruct B2 as [Hm Hd]. split; [exact Hm|].
    split; [now destruct (doors (state w))|].
    now rewrite state_closeDoors_detached.
Qed.

Lemma door_clicks_find_work_witness :
  exists w w', run cfg6 (init cfg6) [Fire] = Some w /\
               step cfg6 w (Click 1000 CloseBtn) = Some w' /\
               doors (state w) = DoorOpen /\ doors (state w') = DoorClosed.
Proof.
  eexists. eexists. split; [vm_compute; reflexivity|].
  split; [vm_compute; reflexivity|].
  match goal with
  | |- doors (state ?w) = _ /\ doors (state ?w') = _ =>
      destruct (door_clicks_find_work cfg6 [Fire] w 1000 CloseBtn w'
                  ltac:(vm_compute; reflexivity)
                  ltac:(vm_compute; reflexivity)) as [_ H]
  end.
  destruct (H eq_refl) as [_ [H1 H2]]. split; assumption.
Defined.

(** ** The dwell timer, continued *)

(** X7: there is never more than one dwell timer: in a reachable world
    any two pending auto-close callbacks are the same timer, the one
    [doorTimer] holds. *)
Theorem one_dwell_timer cfg ins w t u :
  run cfg (init cfg) ins = Some w ->
  In t (timers w) -> In u (timers w) ->
  cb t = AutoClose -> cb u = AutoClose ->
  t = u /\ doorTimer w = Some (tid t).
Proof.
  intros Hrun Ht Hu Hct Hcu.
  pose proof (reachable_queueOk cfg w (ex_intro _ ins Hrun)) as Hq.
  pose proof (proj1 (q_owner w Hq t Ht) Hct) as H1.
  pose proof (proj1 (q_owner w Hq u Hu) Hcu) as H2.
  split; [|exact H1].
  apply (same_handle (timers w)); auto using q_nodup. congruence.
Qed.

Lemma one_dwell_timer_witness :
  exists w, run cfg6 (init cfg6) toFloor4 = Some w /\
            doorTimer w = Some 10%nat.
Proof.
  eexists. split; [vm_compute; reflexivity|].
  match goal with
  | |- doorTimer ?w = _ =>
      destruct (one_dwell_timer cfg6 toFloor4 w
                  (mkTimer 10 11000 AutoClose) (mkTimer 10 11000 AutoClose)
                  ltac:(vm_compute; reflexivity)
                  ltac:(vm_compute; left; reflexivity)
                  ltac:(vm_compute; left; reflexivity)
                  eq_refl eq_refl) as [_ H]
  end.
  exact H.
Defined.

Lemma filter_all {A} (P : A -> bool) l :
  (forall x, In x l -> P x = true) -> filter P l = l.
Proof.
  induction l as [|a l IH]; simpl; intros H; [reflexivity|].
  rewrite (H a (or_introl eq_refl)), IH; auto.
Qed.

Lemma clearDoorTimer_filter w :
  queueOk w ->
  timers (clearDoorTimer w)
  = filter (fun t => negb (isAutoClose (cb t))) (timers w).
Proof.
  intros Hq. rewrite timers_clearDoorTimer.
  destruct (doorTimer w) as [id|] eqn:E.
  - unfold cancel. apply filter_ext_in. intros t Ht. f_equal.
    pose proof (q_owner w Hq t Ht) as Ho. rewrite E in Ho.
    destruct (Nat.eqb_spec (tid t) id) as [Hid | Hid].
    + rewrite (proj2 Ho); [reflexivity | now rewrite Hid].
    + destruct (cb t); try reflexivity.
      exfalso. apply Hid. destruct Ho as [Ho _].
      specialize (Ho eq_refl). congruence.
  - symmetry. apply filter_all. intros t Ht.
    pose proof (q_owner w Hq t Ht) as Ho. rewrite E in Ho.
    destruct (cb t); try reflexivity.
    destruct Ho as [Ho _]. specialize (Ho eq_refl). discriminate.
Qed.

(** X8: [openDoors] on doors that are open already replays nothing: the
    state is untouched and the only DOM effect is the refresh of the
    buttons; it replaces the dwell timer, if one is running, by a new one
    due [doorAutoCloseMs] from now, and leaves every other timer
    pending. *)
Theorem reopening_restarts_dwell cfg ins w :
  run cfg (init cfg) ins = Some w ->
  doors (state w) = DoorOpen ->
  let w' := openDoors cfg w in
  state w' = state w /\
  log w' = (clock w, RefreshButtons) :: log w /\
  timers w'
  = filter (fun t => negb (isAutoClose (cb t))) (timers w)
    ++ [mkTimer (nextId w) (clock w + doorAutoCloseMs) AutoClose] /\
  doorTimer w' = Some (nextId w).
Proof.
  intros Hrun Hd w'. subst w'.
  pose proof (reachable_queueOk cfg w (ex_intro _ ins Hrun)) as Hq.
  rewrite openDoors_open by assumption.
  cbn [state log timers doorTimer refreshButtons emit set_panel
       startDoorAutoCloseTimer set_doorTimer setTimeout clock].
  rewrite state_clearDoorTimer, log_clearDoorTimer, clock_clearDoorTimer,
    nextId_clearDoorTimer, clearDoorTimer_filter by assumption.
  repeat split.
Qed.

Lemma reopening_restarts_dwell_witness :
  exists w, run cfg6 (init cfg6) toFloor4 = Some w /\
            timers (openDoors cfg6 w) = [mkTimer 11 11000 AutoClose].
Proof.
  eexists. split; [vm_compute; reflexivity|].
  match goal with
  | |- timers (openDoors cfg6 ?w) = _ =>
      destruct (reopening_restarts_dwell cfg6 toFloor4 w
                  ltac:(vm_compute; reflexivity) eq_refl) as [_ [_ [H _]]]
  end.
  rewrite H. reflexivity.
Defined.

Lemma timers_openHallDoors cfg f w :
  timers (openHallDoors cfg f w) = timers w.
Proof. unfold openHallDoors. destruct (hasHall cfg f); reflexivity. Qed.

Lemma nextId_openHallDoors cfg f w :
  nextId (openHallDoors cfg f w) = nextId w.
Proof. unfold openHallDoors. destruct (hasHall cfg f); reflexivity. Qed.

(** X9: Open pressed while nothing is pending: the doors open, and with
    nothing else happening they are closed again exactly
    [doorTime + doorAutoCloseMs] later (settle, then dwell), with the
    state of the car as it was before. *)
Theorem open_dwell_close cfg ins w :
  run cfg (init cfg) ins = Some w ->
  atRest w ->
  doors (state (openDoors cfg w)) = DoorOpen /\
  exists w2,
    run cfg (openDoors cfg w) [Fire; Fire] = Some w2 /\
    clock w2 = clock w + Z.max 0 (doorTime cfg) + doorAutoCloseMs /\
    state w2 = state w.
Proof.
  intros Hrun Hrest.
  destruct (rest_facts cfg w (ex_intro _ ins Hrun) Hrest) as [Hs _].
  assert (Hd : doors (state w) = DoorClosed) by now rewrite Hs.
  assert (Hm : moving (state w) = false) by now rewrite Hs.
  split; [now rewrite state_openDoors|].
  set (tm := mkTimer (nextId w) (clock w + Z.max 0 (doorTime cfg)) OpenSettled).
  assert (Ht : timers (openDoors cfg w) = [tm]).
  { rewrite openDoors_closed by assumption.
    cbn [timers setTimeout refreshButtons emit set_panel upd_state nextId
         clock].
    rewrite timers_openHallDoors, nextId_openHallDoors, clock_openHallDoors.
    unfold atRest in Hrest. now rewrite Hrest. }
  destruct (dwell_then_close cfg (openDoors cfg w) tm) as [w2 [H1 [H2 H3]]].
  - now rewrite Ht.
  - reflexivity.
  - now rewrite state_openDoors.
  - rewrite Ht. intros u [<- | []]. now left.
  - exists w2. split; [exact H1|]. split; [exact H2|].
    rewrite H3, state_openDoors, <- Hd. now destruct (state w).
Qed.

Lemma open_dwell_close_witness :
  exists w w2, run cfg6 (init cfg6) idleClosed = Some w /\
               run cfg6 (openDoors cfg6 w) [Fire; Fire] = Some w2 /\
               clock w2 = clock w + 700 + 5000 /\ state w2 = state w.
Proof.
  let r := eval vm_compute in (run cfg6 (init cfg6) idleClosed) in
  match r with
  | Some ?w =>
      destruct (open_dwell_close cfg6 idleClosed w
                  ltac:(vm_compute; reflexivity) eq_refl)
        as [_ [w2 [H1 [H2 H3]]]];
      exists w, w2
  end.
  split; [vm_compute; reflexivity|]. repeat split; assumption.
Defined.

(** ** A request served alone *)






(** ** A close after the doors have settled *)

(** X19: once the doors have finished opening, so that the dwell timer is
    the only thing pending, a [closeDoors] is final.  It cancels the
    timer, and whatever timers fire afterwards, no dwell timer is pending
    or armed again and nothing is left that could arm one; the state
    stays what the close made it, with the doors closed. *)
Theorem settled_close_is_final cfg ins w n w' :
  run cfg (init cfg) ins = Some w ->
  (forall u, In u (timers w) -> cb u = AutoClose) ->
  run cfg (closeDoors cfg Detached w) (repeat Fire n) = Some w' ->
  noAutoClose w' /\ doorTimer w' = None /\
  (forall u, In u (timers w') -> cb u <> OpenSettled) /\
  state w' = set_doors DoorClosed (state w).
Proof.
  intros Hrun Hall Hn.
  assert (Hq : queueOk w) by (apply (reachable_queueOk cfg); now exists ins).
  destruct (settling_run cfg n _ _ (settling_closeDoors cfg w Hq Hall) Hn)
    as [[Hd Hs] Hst].
  split; [|split; [exact Hd|split]].
  - intros u Hu Hc. destruct (Hs u Hu) as [E | [f E]]; congruence.
  - intros u Hu Hc. destruct (Hs u Hu) as [E | [f E]]; congruence.
  - now rewrite Hst, state_closeDoors_detached.
Qed.

Lemma settled_close_is_final_witness :
  exists w w',
    run cfg6 (init cfg6) [Fire] = Some w /\
    timers w = [mkTimer 2 5700 AutoClose] /\
    run cfg6 (closeDoors cfg6 Detached w) (repeat Fire 2) = Some w' /\
    timers w' = [] /\ doorTimer w' = None /\
    state w' = mkCar 0 0 false DoorClosed 0.
Proof.
  let r := eval vm_compute in (run cfg6 (init cfg6) [Fire]) in
  match r with
  | Some ?w =>
      let r' := eval vm_compute in
        (run cfg6 (closeDoors cfg6 Detached w) (repeat Fire 2)) in
      match r' with
      | Some ?w' =>
          exists w, w';
          split; [vm_compute; reflexivity|];
          split; [reflexivity|];
          split; [vm_compute; reflexivity|];
          split; [reflexivity|];
          destruct (settled_close_is_final cfg6 [Fire] w 2 w')
            as [_ [Hd [_ Hs]]];
            [vm_compute; reflexivity
            | intros u [<- | []]; reflexivity
            | vm_compute; reflexivity
            | split; [exact Hd | exact Hs]]
      end
  end.
Defined.

(** ** Names, labels and positions *)

Lemma to_int_proper z : Z.to_int z <> Decimal.Pos Decimal.Nil /\
                        Z.to_int z <> Decimal.Neg Decimal.Nil.
Proof.
  destruct z; simpl; split; try discriminate; intros H; injection H;
    apply DecimalPos.Unsigned.to_uint_nonnil.
Qed.

Lemma digits_inj a b : digits a = digits b -> a = b.
Proof.
  unfold digits. intros H.
  apply (f_equal NilZero.int_of_string) in H.
  destruct (to_int_proper a), (to_int_proper b).
  rewrite !NilZero.isi in H by assumption.
  injection H. apply DecimalZ.to_int_inj.
Qed.

Lemma string_length_append (s t : string) :
  String.length (s ++ t)%string = (String.length s + String.length t)%nat.
Proof. induction s as [|c s IH]; simpl; [reflexivity | now rewrite IH]. Qed.

Lemma append_cancel_r (s1 s2 t : string) :
  (s1 ++ t)%string = (s2 ++ t)%string -> s1 = s2.
Proof.
  revert s2. induction s1 as [|c s1 IH]; intros [|c2 s2] H; simpl in H.
  - reflexivity.
  - exfalso. apply (f_equal String.length) in H. simpl in H.
    rewrite string_length_append in H. lia.
  - exfalso. apply (f_equal String.length) in H. simpl in H.
    rewrite string_length_append in H. lia.
  - injection H as -> H. f_equal. now apply IH.
Qed.

Ltac no_suffix H s :=
  repeat (destruct s as [|? s];
          [discriminate H | simpl in H; injection H as _ H]);
  destruct s; discriminate H.

Lemma th_not_ground s : (s ++ "th Floor")%string <> "Ground Floor"%string.
Proof. intros H. no_suffix H s. Qed.

Lemma th_not_first s : (s ++ "th Floor")%string <> "1st Floor"%string.
Proof. intros H. no_suffix H s. Qed.

Lemma th_not_second s : (s ++ "th Floor")%string <> "2nd Floor"%string.
Proof. intros H. no_suffix H s. Qed.

Lemma th_not_third s : (s ++ "th Floor")%string <> "3rd Floor"%string.
Proof. intros H. no_suffix H s. Qed.

(** X12: on the safe integers, where the number a floor is held in
    prints as the integer it is, every floor has a name and different
    floors have different names, negative floors included. *)
Theorem floorName_injective f g :
  isSafeInteger f = true -> isSafeInteger g = true ->
  (exists s, floorName f = Some s) /\
  (floorName f = floorName g -> f = g).
Proof.
  intros Hf Hg. unfold floorName, numberText. rewrite Hf, Hg.
  cbn [option_map]. split.
  - repeat (destruct (_ =? _); [eexists; reflexivity|]).
    eexists; reflexivity.
  - destruct (Z.eqb_spec f 0); [|destruct (Z.eqb_spec f 1);
      [|destruct (Z.eqb_spec f 2); [|destruct (Z.eqb_spec f 3)]]];
    (destruct (Z.eqb_spec g 0); [|destruct (Z.eqb_spec g 1);
      [|destruct (Z.eqb_spec g 2); [|destruct (Z.eqb_spec g 3)]]]);
    intros H; try (injection H as H); try congruence; try discriminate H;
    try (exfalso; symmetry in H; revert H;
         first [apply th_not_ground | apply th_not_first
               | apply th_not_second | apply th_not_third]);
    try (exfalso; revert H;
         first [apply th_not_ground | apply th_not_first
               | apply th_not_second | apply th_not_third]).
    apply digits_inj. now apply append_cancel_r in H.
Qed.

Lemma floorName_injective_witness :
  floorName 21 = Some "21th Floor"%string /\
  floorName (-1) = Some "-1th Floor"%string /\
  floorName (MAX_SAFE_INTEGER + 1) = None /\
  21 = 20 + 1.
Proof.
  repeat (split; [reflexivity|]).
  apply (floorName_injective 21 (20 + 1)); reflexivity.
Defined.

Lemma active_count floor : forall n a,
  count_occ bool_dec
            (map (fun i => Z.of_nat i =? floor) (seq a n)) true
  = if (Z.of_nat a <=? floor) && (floor <? Z.of_nat (a + n))
    then 1%nat else 0%nat.
Proof.
  induction n as [|n IH]; intros a; simpl.
  - destruct (Z.leb_spec (Z.of_nat a) floor), (Z.ltb_spec floor (Z.of_nat (a + 0)));
      simpl; try reflexivity; lia.
  - rewrite IH.
    destruct (Z.eqb_spec (Z.of_nat a) floor) as [E | E];
      destruct (bool_dec _ true) as [B | B]; try discriminate; try congruence;
      destruct (Z.leb_spec (Z.of_nat (S a)) floor),
               (Z.ltb_spec floor (Z.of_nat (S a + n))),
               (Z.leb_spec (Z.of_nat a) floor),
               (Z.ltb_spec floor (Z.of_nat (a + S n)));
      simpl; try reflexivity; lia.
Qed.

(** X13: [setActiveLabel(floor)] marks the label of [floor] and no
    other: exactly one label is active when the floor exists, the one at
    its index, and none at all when it does not (as when the car has
    left the building). *)
Theorem setActiveLabel_marks_one cfg floor :
  count_occ bool_dec (setActiveLabel cfg floor) true
  = (if hasHall cfg floor then 1%nat else 0%nat) /\
  (forall i b, nth_error (setActiveLabel cfg floor) i = Some b ->
               b = (Z.of_nat i =? floor)) /\
  length (setActiveLabel cfg floor) = Z.to_nat (floors cfg).
Proof.
  unfold setActiveLabel. split; [|split].
  - rewrite active_count. unfold hasHall. simpl Z.of_nat.
    destruct (Z.leb_spec 0 floor); simpl; [|reflexivity].
    destruct (Z.ltb_spec floor (Z.of_nat (Z.to_nat (floors cfg)))),
             (Z.ltb_spec floor (floors cfg)); try reflexivity; lia.
  - intros i b H. rewrite nth_error_map in H.
    destruct (nth_error (seq 0 (Z.to_nat (floors cfg))) i) as [k|] eqn:E;
      [|discriminate].
    simpl in H. injection H as <-.
    assert (Hi : (i < Z.to_nat (floors cfg))%nat).
    { assert (Hlen : (i < length (seq 0 (Z.to_nat (floors cfg))))%nat)
        by (apply nth_error_Some; now rewrite E).
      now rewrite length_seq in Hlen. }
    pose proof (nth_error_nth _ _ 0%nat E) as Hn.
    rewrite seq_nth in Hn by assumption. simpl in Hn. now subst k.
  - now rewrite length_map, length_seq.
Qed.

Lemma setActiveLabel_marks_one_witness :
  count_occ bool_dec (setActiveLabel cfg6 8) true = 0%nat /\
  count_occ bool_dec (setActiveLabel cfg6 4) true = 1%nat /\
  true = (Z.of_nat 4 =? 4).
Proof.
  destruct (setActiveLabel_marks_one cfg6 8) as [H8 _].
  destruct (setActiveLabel_marks_one cfg6 4) as [H4 [Hn _]].
  split; [exact H8|]. split; [exact H4|].
  apply (Hn 4%nat true). reflexivity.
Defined.



(** *** Buttons that [floorBtnEls] does not hold *)

Lemma refreshFlags_untracked cfg s fs : forall old j0 i,
  tracked cfg (j0 + i) = false ->
  nth_error (refreshFlags cfg s j0 fs old) i = nth_error old i.
Proof.
  induction fs as [|f fs IH]; intros [|o old] j0 i Ht; simpl;
    try reflexivity.
  destruct i as [|i]; simpl.
  - rewrite Nat.add_0_r in Ht. now rewrite Ht.
  - apply IH. now replace (S j0 + i)%nat with (j0 + S i)%nat by lia.
Qed.

Lemma strayEnabled_same cfg w w' :
  panel w' = panel w -> strayEnabled cfg w -> strayEnabled cfg w'.
Proof. intros E H j Hj Ht. rewrite E. now apply H. Qed.

Lemma strayEnabled_refreshButtons cfg w :
  strayEnabled cfg w -> strayEnabled cfg (refreshButtons cfg w).
Proof.
  intros H j Hj Ht. unfold refreshButtons.
  cbn -[refreshFlags buttonFloors].
  rewrite refreshFlags_untracked by exact Ht. now apply H.
Qed.

Lemma strayEnabled_upd_state cfg f w :
  strayEnabled cfg w -> strayEnabled cfg (upd_state f w).
Proof. now apply strayEnabled_same. Qed.

Lemma strayEnabled_emit cfg e w :
  strayEnabled cfg w -> strayEnabled cfg (emit e w).
Proof. now apply strayEnabled_same. Qed.

Lemma strayEnabled_setTimeout cfg c ms w :
  strayEnabled cfg w -> strayEnabled cfg (setTimeout c ms w).
Proof. now apply strayEnabled_same. Qed.

Lemma strayEnabled_updateHeader cfg w :
  strayEnabled cfg w -> strayEnabled cfg (updateHeader w).
Proof. now apply strayEnabled_same. Qed.

Lemma strayEnabled_clearDoorTimer cfg w :
  strayEnabled cfg w -> strayEnabled cfg (clearDoorTimer w).
Proof. apply strayEnabled_same, panel_clearDoorTimer. Qed.

Lemma strayEnabled_startDoorAutoCloseTimer cfg w :
  strayEnabled cfg w -> strayEnabled cfg (startDoorAutoCloseTimer w).
Proof.
  apply strayEnabled_same. unfold startDoorAutoCloseTimer. simpl.
  apply panel_clearDoorTimer.
Qed.

Lemma strayEnabled_openHallDoors cfg f w :
  strayEnabled cfg w -> strayEnabled cfg (openHallDoors cfg f w).
Proof. apply strayEnabled_same, panel_openHallDoors. Qed.

Lemma strayEnabled_closeHallDoors cfg f w :
  strayEnabled cfg w -> strayEnabled cfg (closeHallDoors cfg f w).
Proof. apply strayEnabled_same, panel_closeHallDoors. Qed.

Create HintDb stray.

#[export] Hint Resolve strayEnabled_refreshButtons strayEnabled_upd_state
  strayEnabled_emit strayEnabled_setTimeout strayEnabled_updateHeader
  strayEnabled_clearDoorTimer strayEnabled_startDoorAutoCloseTimer
  strayEnabled_openHallDoors strayEnabled_closeHallDoors : stray.

Lemma strayEnabled_openDoors cfg w :
  strayEnabled cfg w -> strayEnabled cfg (openDoors cfg w).
Proof.
  intros H. unfold openDoors.
  destruct (doors (state w)); cbv zeta; auto 10 with stray.
Qed.

Lemma strayEnabled_travelLoop cfg steps stp temp i w :
  strayEnabled cfg w -> strayEnabled cfg (travelLoop cfg steps stp temp i w).
Proof.
  intros H. unfold travelLoop. destruct (i <? steps); [auto with stray|].
  unfold arrive. cbv zeta. apply strayEnabled_openDoors. auto 10 with stray.
Qed.

Lemma strayEnabled_goToFloor_afterClose cfg target w :
  strayEnabled cfg w -> strayEnabled cfg (goToFloor_afterClose cfg target w).
Proof.
  intros H. unfold goToFloor_afterClose. cbv zeta. destruct (_ =? 0).
  - apply strayEnabled_openDoors. auto with stray.
  - apply strayEnabled_travelLoop. auto 10 with stray.
Qed.

Lemma strayEnabled_closeDoors cfg a w :
  strayEnabled cfg w -> strayEnabled cfg (closeDoors cfg a w).
Proof.
  intros H. unfold closeDoors. cbv zeta.
  destruct (doors (state (clearDoorTimer w))); [auto 10 with stray|].
  destruct a as [|target]; cbn [resume]; [auto with stray|].
  apply strayEnabled_goToFloor_afterClose. auto with stray.
Qed.

Lemma strayEnabled_goToFloor cfg target w :
  strayEnabled cfg w -> strayEnabled cfg (goToFloor cfg target w).
Proof.
  intros H. unfold goToFloor. cbv zeta. destruct (_ || _).
  - auto with stray.
  - apply strayEnabled_closeDoors. auto 10 with stray.
Qed.

Lemma strayEnabled_runCall cfg c w :
  strayEnabled cfg w -> strayEnabled cfg (runCall cfg c w).
Proof.
  destruct c; cbn [runCall];
    auto using strayEnabled_goToFloor, strayEnabled_openDoors,
               strayEnabled_closeDoors.
Qed.

Lemma strayEnabled_runCallback cfg c w :
  strayEnabled cfg w -> strayEnabled cfg (runCallback cfg c w).
Proof.
  intros H. destruct c as [| |a|f|steps stp temp i]; cbn [runCallback].
  - destruct (moving (state w)); auto using strayEnabled_closeDoors.
  - auto with stray.
  - destruct a as [|target]; cbn [resume]; [auto with stray|].
    apply strayEnabled_goToFloor_afterClose. auto with stray.
  - auto with stray.
  - unfold travelTick. cbv zeta. apply strayEnabled_travelLoop.
    auto with stray.
Qed.

Lemma strayEnabled_step cfg w i w' :
  strayEnabled cfg w -> step cfg w i = Some w' -> strayEnabled cfg w'.
Proof.
  intros Hw. destruct i as [|t c|t b]; simpl.
  - destruct (nextTimer (timers w)) as [tm|]; [|discriminate].
    intros H; inversion H; subst.
    apply strayEnabled_runCallback. revert Hw. now apply strayEnabled_same.
  - destruct (canHappenAt t w); [|discriminate].
    intros H; inversion H; subst.
    apply strayEnabled_runCall. revert Hw. now apply strayEnabled_same.
  - destruct (canHappenAt t w); [|discriminate].
    destruct (clickTarget cfg b w) as [c|]; [|discriminate].
    intros H; inversion H; subst.
    apply strayEnabled_runCall. revert Hw. now apply strayEnabled_same.
Qed.

Lemma strayEnabled_run cfg ins : forall w w',
  strayEnabled cfg w -> run cfg w ins = Some w' -> strayEnabled cfg w'.
Proof.
  induction ins as [|i ins IH]; simpl; intros w w' Hw H.
  - inversion H; subst; assumption.
  - destruct (step cfg w i) as [w1|] eqn:E; [|discriminate].
    eapply IH; [|eassumption]. eapply strayEnabled_step; eassumption.
Qed.

Lemma strayEnabled_init cfg : strayEnabled cfg (init cfg).
Proof.
  unfold init, buildControls. apply strayEnabled_openDoors.
  do 3 (first [apply strayEnabled_refreshButtons
              | apply strayEnabled_updateHeader]).
  intros j Hj _. simpl.
  do 6 (destruct j as [|j]; [reflexivity|]). lia.
Qed.

(** X15: what [buildControls] puts on the panel.  With six floors or
    more every floor button is for an existing floor, no two buttons are
    for the same floor, and [floorBtnEls] holds them all, so that
    [refreshButtons] reaches every one.  With five floors the button "0"
    of the second row is shadowed by G; with four or fewer there is a
    button for a negative floor.  A button that [floorBtnEls] does not
    hold is enabled in every reachable world, whatever the car does, and
    its click calls [goToFloor]. *)
Theorem panel_buttons cfg :
  (6 <= floors cfg ->
   NoDup (buttonFloors cfg) /\
   forall j f, nth_error (buttonFloors cfg) j = Some f ->
               hasHall cfg f = true /\ tracked cfg j = true) /\
  (floors cfg = 5 ->
   nth_error (buttonFloors cfg) 4 = Some 0 /\ tracked cfg 4 = false) /\
  (floors cfg <= 4 ->
   nth_error (buttonFloors cfg) 4 = Some (floors cfg - 5) /\
   floors cfg - 5 < 0 /\ tracked cfg 4 = false) /\
  (forall ins w j f,
      run cfg (init cfg) ins = Some w ->
      nth_error (buttonFloors cfg) j = Some f -> tracked cfg j = false ->
      nth_error (floorDisabled (panel w)) j = Some false /\
      clickTarget cfg (FloorBtn j) w = Some (CallGoToFloor f)).
Proof.
  split; [|split; [|split]].
  - intros Hf. split.
    + unfold buttonFloors. cbv zeta.
      repeat (constructor; [simpl; lia|]). constructor.
    + intros j f E.
      assert (Hj : (j < length (buttonFloors cfg))%nat)
        by (apply nth_error_Some; rewrite E; discriminate).
      pose proof (tracked_all cfg j Hf Hj) as Ht. split; [|exact Ht].
      unfold tracked in Ht. rewrite E in Ht.
      now apply andb_true_iff in Ht.
  - intros Hf. unfold tracked, buttonFloors, hasHall. cbv zeta. rewrite Hf.
    split; reflexivity.
  - intros Hf. unfold tracked, buttonFloors, hasHall. cbv zeta.
    cbn [nth_error]. split; [f_equal; lia|]. split; [lia|].
    destruct (Z.leb_spec 0 (floors cfg - 1 - 4)); [lia | reflexivity].
  - intros ins w j f Hrun Ej Ht.
    assert (Hj : (j < 6)%nat).
    { assert (H : (j < length (buttonFloors cfg))%nat)
        by (apply nth_error_Some; rewrite Ej; discriminate).
      exact H. }
    assert (Hen : nth_error (floorDisabled (panel w)) j = Some false).
    { eapply strayEnabled_run; [apply strayEnabled_init | exact Hrun
                               | exact Hj | exact Ht]. }
    split; [exact Hen|].
    cbn [clickTarget]. now rewrite Ej, Hen.
Qed.

Lemma panel_buttons_witness :
  NoDup (buttonFloors cfg6) /\
  nth_error (buttonFloors (mkConfig 3 700)) 4 = Some (-2) /\
  tracked (mkConfig 3 700) 4 = false /\
  (exists w, run (mkConfig 3 700) (init (mkConfig 3 700))
                 [Fire; Click 1000 (FloorBtn 0); Fire; Fire] = Some w /\
             moving (state w) = true /\
             clickTarget (mkConfig 3 700) (FloorBtn 4) w
             = Some (CallGoToFloor (-2))).
Proof.
  destruct (panel_buttons cfg6) as [H6 _].
  destruct (panel_buttons (mkConfig 3 700)) as [_ [_ [H3 Hs]]].
  split; [apply H6; vm_compute; discriminate|].
  destruct H3 as [H31 [_ H33]]; [vm_compute; discriminate|].
  split; [assumption|]. split; [assumption|].
  let r := eval vm_compute in
    (run (mkConfig 3 700) (init (mkConfig 3 700))
         [Fire; Click 1000 (FloorBtn 0); Fire; Fire]) in
  match r with
  | Some ?w =>
      exists w; split; [vm_compute; reflexivity|];
      split; [reflexivity|];
      apply (Hs [Fire; Click 1000 (FloorBtn 0); Fire; Fire] w 4%nat (-2));
        [vm_compute; reflexivity | reflexivity | exact H33]
  end.
Defined.

(** ** What no handler does *)

Lemma keeps_refl w : keeps w w.
Proof. intros t Ht _. exact Ht. Qed.

Lemma keeps_trans w1 w2 w3 : keeps w1 w2 -> keeps w2 w3 -> keeps w1 w3.
Proof. intros H1 H2 t Ht Hc. auto. Qed.

Lemma keeps_same w w' : timers w' = timers w -> keeps w w'.
Proof. intros E t Ht _. now rewrite E. Qed.

Lemma keeps_setTimeout c ms w : keeps w (setTimeout c ms w).
Proof. intros t Ht _. simpl. apply in_or_app. now left. Qed.

Lemma keeps_clearDoorTimer w : queueOk w -> keeps w (clearDoorTimer w).
Proof.
  intros Hq t Ht Hc. rewrite clearDoorTimer_filter by assumption.
  apply filter_In. split; [exact Ht|]. now destruct (cb t).
Qed.

Lemma keeps_startDoorAutoCloseTimer w :
  queueOk w -> keeps w (startDoorAutoCloseTimer w).
Proof.
  intros Hq. eapply keeps_trans; [now apply keeps_clearDoorTimer|].
  intros t Ht _. simpl. apply in_or_app. now left.
Qed.

Lemma keeps_openHallDoors cfg f w : keeps w (openHallDoors cfg f w).
Proof. apply keeps_same, timers_openHallDoors. Qed.

Lemma keeps_closeHallDoors cfg f w : keeps w (closeHallDoors cfg f w).
Proof.
  unfold closeHallDoors. destruct (hasHall cfg f); [|apply keeps_refl].
  eapply keeps_trans; [|apply keeps_setTimeout]. now apply keeps_same.
Qed.

Lemma keeps_openDoors cfg w : queueOk w -> keeps w (openDoors cfg w).
Proof.
  intros Hq. destruct (doors (state w)) eqn:Hd.
  - rewrite openDoors_open by assumption.
    eapply keeps_trans; [now apply keeps_startDoorAutoCloseTimer|].
    now apply keeps_same.
  - rewrite openDoors_closed by assumption.
    eapply keeps_trans; [|apply keeps_setTimeout].
    eapply keeps_trans; [apply (keeps_openHallDoors cfg (current (state w)))|].
    now apply keeps_same.
Qed.

Lemma keeps_travelLoop cfg steps stp temp i w :
  queueOk w -> keeps w (travelLoop cfg steps stp temp i w).
Proof.
  intros Hq. unfold travelLoop. destruct (i <? steps).
  - apply keeps_setTimeout.
  - unfold arrive. cbv zeta.
    eapply keeps_trans; [|apply keeps_openDoors; auto 10 with queue].
    now apply keeps_same.
Qed.

Lemma keeps_goToFloor_afterClose cfg target w :
  queueOk w -> keeps w (goToFloor_afterClose cfg target w).
Proof.
  intros Hq. unfold goToFloor_afterClose. cbv zeta. destruct (_ =? 0).
  - eapply keeps_trans; [|apply keeps_openDoors; auto with queue].
    now apply keeps_same.
  - eapply keeps_trans; [|apply keeps_travelLoop; auto 10 with queue].
    now apply keeps_same.
Qed.

Lemma keeps_closeDoors cfg a w : queueOk w -> keeps w (closeDoors cfg a w).
Proof.
  intros Hq. destruct (doors (state w)) eqn:Hd.
  - rewrite closeDoors_open by assumption.
    eapply keeps_trans; [|apply keeps_setTimeout].
    eapply keeps_trans; [now apply keeps_clearDoorTimer|].
    eapply keeps_trans;
      [apply (keeps_closeHallDoors cfg (current (state w)))|].
    now apply keeps_same.
  - rewrite closeDoors_closed by assumption.
    eapply keeps_trans; [now apply keeps_clearDoorTimer|].
    destruct a as [|target]; cbn [resume]; [now apply keeps_same|].
    eapply keeps_trans;
      [|apply keeps_goToFloor_afterClose; auto with queue].
    now apply keeps_same.
Qed.

Lemma keeps_goToFloor cfg target w :
  queueOk w -> keeps w (goToFloor cfg target w).
Proof.
  intros Hq. unfold goToFloor. cbv zeta. destruct (_ || _).
  - now apply keeps_same.
  - eapply keeps_trans; [|apply keeps_closeDoors; auto 10 with queue].
    now apply keeps_same.
Qed.

Lemma keeps_runCall cfg c w : queueOk w -> keeps w (runCall cfg c w).
Proof.
  intros Hq. destruct c; cbn [runCall];
    auto using keeps_goToFloor, keeps_openDoors, keeps_closeDoors.
Qed.

Lemma keeps_runCallback cfg c w : queueOk w -> keeps w (runCallback cfg c w).
Proof.
  intros Hq. destruct c as [| |a|f|steps stp temp i]; cbn [runCallback].
  - destruct (moving (state w)); [apply keeps_refl|].
    now apply keeps_closeDoors.
  - now apply keeps_startDoorAutoCloseTimer.
  - destruct a as [|target]; cbn [resume]; [now apply keeps_same|].
    eapply keeps_trans;
      [|apply keeps_goToFloor_afterClose; auto with queue].
    now apply keeps_same.
  - now apply keeps_same.
  - unfold travelTick. cbv zeta.
    eapply keeps_trans; [|apply keeps_travelLoop; auto with queue].
    now apply keeps_same.
Qed.

(** X16: a routine that has started cannot be cancelled.  Whatever
    happens next in a reachable world (a click, a call, another timer),
    every pending timer other than the dwell timer is still pending
    afterwards, with the same due time, unless it is the one the event
    loop has just run: only the dwell timer is ever cleared. *)
Theorem suspended_routines_run cfg ins w i w' t :
  run cfg (init cfg) ins = Some w ->
  step cfg w i = Some w' ->
  In t (timers w) -> cb t <> AutoClose ->
  In t (timers w') \/ (i = Fire /\ nextTimer (timers w) = Some t).
Proof.
  intros Hrun Hstep Ht Hc.
  pose proof (reachable_queueOk cfg w (ex_intro _ ins Hrun)) as Hq.
  destruct i as [|tc c|tc b]; simpl in Hstep.
  - destruct (nextTimer (timers w)) as [tm|] eqn:En; [|discriminate].
    inversion Hstep; subst w'; clear Hstep.
    destruct (Nat.eq_dec (tid t) (tid tm)) as [Eid | Nid].
    + right. split; [reflexivity|]. f_equal. symmetry.
      apply (same_handle (timers w)); auto using q_nodup, nextTimer_In.
    + left. apply keeps_runCallback; [now apply queueOk_fire | | exact Hc].
      simpl. apply In_cancel. auto.
  - destruct (canHappenAt tc w) eqn:E; [|discriminate].
    inversion Hstep; subst w'. left.
    apply keeps_runCall; [now apply queueOk_set_clock | exact Ht | exact Hc].
  - destruct (canHappenAt tc w) eqn:E; [|discriminate].
    destruct (clickTarget cfg b w) as [c|]; [|discriminate].
    inversion Hstep; subst w'. left.
    apply keeps_runCall; [now apply queueOk_set_clock | exact Ht | exact Hc].
Qed.

Lemma suspended_routines_run_witness :
  exists w w', run cfg6 (init cfg6) requestWithOpenDoors = Some w /\
               step cfg6 w (Click 1100 OpenBtn) = Some w' /\
               In (mkTimer 4 1700 (CloseSettled (AwaitedByGoToFloor 3)))
                  (timers w').
Proof.
  eexists. eexists. split; [vm_compute; reflexivity|].
  split; [vm_compute; reflexivity|].
  match goal with
  | |- In ?t (timers ?w') =>
      destruct (suspended_routines_run cfg6 requestWithOpenDoors _
                  (Click 1100 OpenBtn) w' t
                  ltac:(vm_compute; reflexivity)
                  ltac:(vm_compute; reflexivity)
                  ltac:(vm_compute; right; left; reflexivity)
                  ltac:(discriminate)) as [H | [H _]]
  end.
  - exact H.
  - discriminate H.
Defined.

(** A request, dropped or admitted, whatever the doors, ends its
    synchronous part with [selected] and [active] equal to the target. *)
Lemma goToFloor_selects cfg w target :
  selected (state (goToFloor cfg target w)) = target /\
  activeFloor (panel (goToFloor cfg target w)) = target.
Proof.
  destruct (moving (state w) || (target =? current (state w))) eqn:E.
  - rewrite goToFloor_dropped by assumption. split; reflexivity.
  - apply orb_false_iff in E. destruct E as [Em En]. apply Z.eqb_neq in En.
    rewrite goToFloor_admitted by assumption.
    set (w4 := updateHeader _).
    assert (Hs4 : selected (state w4) = target) by reflexivity.
    assert (Hc4 : current (state w4) = current (state w)) by reflexivity.
    destruct (doors (state w4)) eqn:Hd.
    + rewrite closeDoors_open by assumption.
      cbn [state panel setTimeout refreshButtons emit set_panel upd_state
           selected set_doors activeFloor].
      now rewrite state_closeHallDoors, state_clearDoorTimer.
    + rewrite closeDoors_closed by assumption. cbn [resume].
      rewrite goToFloor_afterClose_travel
        by (cbn [state refreshButtons emit set_panel];
            rewrite state_clearDoorTimer; congruence).
      cbn [state panel setTimeout refreshButtons emit set_panel upd_state
           selected set_moving activeFloor].
      now rewrite state_clearDoorTimer.
Qed.

Lemma tracked_unique cfg j k f :
  tracked cfg j = true -> tracked cfg k = true ->
  nth_error (buttonFloors cfg) j = Some f ->
  nth_error (buttonFloors cfg) k = Some f -> j = k.
Proof.
  assert (H : forall a b, (a < b)%nat -> tracked cfg a = true ->
                          nth_error (buttonFloors cfg) a = Some f ->
                          nth_error (buttonFloors cfg) b = Some f -> False).
  { intros a b Hab Ht Ea Eb. unfold tracked in Ht. rewrite Ea in Ht.
    apply andb_true_iff in Ht. destruct Ht as [_ Ht].
    apply negb_true_iff in Ht.
    assert (Hex : existsb (Z.eqb f) (skipn (S a) (buttonFloors cfg)) = true).
    { apply existsb_exists. exists f. split; [|apply Z.eqb_refl].
      apply (nth_error_In _ (b - S a)). rewrite nth_error_skipn.
      now replace (S a + (b - S a))%nat with b by lia. }
    congruence. }
  intros Hj Hk Ej Ek.
  destruct (Nat.lt_trichotomy j k) as [L | [E | L]];
    [exfalso; eauto | exact E | exfalso; eauto].
Qed.

(** X17: every call of [goToFloor(target)], dropped or admitted,
    whatever the doors, ends its synchronous part with [selected] equal
    to the target.  The button then highlighted is the one that
    [floorBtnEls] holds for the target, and no other; when the target is
    no floor of the building no button is highlighted at all. *)
Theorem request_highlights_target cfg w target :
  selected (state (goToFloor cfg target w)) = target /\
  (forall j, highlighted cfg (goToFloor cfg target w) j = true <->
             tracked cfg j = true /\
             nth_error (buttonFloors cfg) j = Some target) /\
  (forall j k, highlighted cfg (goToFloor cfg target w) j = true ->
               highlighted cfg (goToFloor cfg target w) k = true -> j = k) /\
  (hasHall cfg target = false ->
   forall j, highlighted cfg (goToFloor cfg target w) j = false).
Proof.
  destruct (goToFloor_selects cfg w target) as [Hs Ha].
  assert (Hiff : forall j,
             highlighted cfg (goToFloor cfg target w) j = true <->
             tracked cfg j = true /\
             nth_error (buttonFloors cfg) j = Some target).
  { intros j. unfold highlighted. rewrite Ha.
    destruct (nth_error (buttonFloors cfg) j) as [f|] eqn:E.
    - rewrite andb_true_iff, Z.eqb_eq. split.
      + intros [Ht ->]. split; [exact Ht | reflexivity].
      + intros [Ht Ef]. split; [exact Ht | congruence].
    - split; [discriminate | intros [_ H]; discriminate H]. }
  split; [exact Hs|]. split; [exact Hiff|]. split.
  - intros j k Hj Hk. apply Hiff in Hj. apply Hiff in Hk.
    destruct Hj as [Tj Ej], Hk as [Tk Ek].
    exact (tracked_unique cfg j k target Tj Tk Ej Ek).
  - intros Hh j.
    destruct (highlighted cfg (goToFloor cfg target w) j) eqn:E;
      [|reflexivity].
    apply Hiff in E. destruct E as [Ht Ej]. unfold tracked in Ht.
    rewrite Ej, Hh in Ht. discriminate Ht.
Qed.

Lemma request_highlights_target_witness :
  highlighted cfg6 (goToFloor cfg6 4 (init cfg6)) 1 = true /\
  nth_error (buttonFloors (mkConfig 3 700)) 3 = Some (-1) /\
  forall j, highlighted (mkConfig 3 700)
              (goToFloor (mkConfig 3 700) (-1) (init (mkConfig 3 700))) j
            = false.
Proof.
  destruct (request_highlights_target cfg6 (init cfg6) 4) as [_ [H _]].
  destruct (request_highlights_target (mkConfig 3 700)
              (init (mkConfig 3 700)) (-1)) as [_ [_ [_ H3]]].
  split; [apply H; split; reflexivity|].
  split; [reflexivity|]. apply H3. reflexivity.
Defined.

Lemma current_goToFloor_afterClose cfg target w :
  current (state (goToFloor_afterClose cfg target w)) = current (state w).
Proof.
  destruct (Z.eq_dec target (current (state w))) as [E | N].
  - rewrite goToFloor_afterClose_same by assumption.
    now rewrite state_openDoors.
  - now rewrite goToFloor_afterClose_travel by assumption.
Qed.

Lemma current_closeDoors cfg a w :
  current (state (closeDoors cfg a w)) = current (state w).
Proof.
  destruct (doors (state w)) eqn:Hd.
  - rewrite closeDoors_open by assumption.
    cbn [state setTimeout refreshButtons emit set_panel upd_state current
         set_doors].
    now rewrite state_closeHallDoors, state_clearDoorTimer.
  - rewrite closeDoors_closed by assumption.
    destruct a as [|target]; cbn [resume].
    + cbn [state refreshButtons emit set_panel].
      now rewrite state_clearDoorTimer.
    + rewrite current_goToFloor_afterClose.
      cbn [state refreshButtons emit set_panel].
      now rewrite state_clearDoorTimer.
Qed.

Lemma current_runCall cfg c w :
  current (state (runCall cfg c w)) = current (state w).
Proof.
  destruct c as [target| |]; cbn [runCall].
  - unfold goToFloor. cbv zeta. destruct (_ || _); [reflexivity|].
    now rewrite current_closeDoors.
  - now rewrite state_openDoors.
  - apply current_closeDoors.
Qed.

(** X18: the car moves only by the ticks of a floor loop.  A click, a
    call, or a timer callback other than a tick leaves [state.current]
    as it is; a tick writes the loop's own counter plus its step. *)
Theorem car_moves_only_by_ticks cfg w i w' :
  step cfg w i = Some w' ->
  current (state w') = current (state w) \/
  (i = Fire /\
   exists t steps stp temp k,
     nextTimer (timers w) = Some t /\
     cb t = TravelTick steps stp temp k /\
     current (state w') = temp + stp).
Proof.
  intros Hstep. destruct i as [|tc c|tc b]; simpl in Hstep.
  - destruct (nextTimer (timers w)) as [tm|] eqn:En; [|discriminate].
    inversion Hstep; subst w'; clear Hstep.
    destruct (cb tm) as [| |a|f|steps stp temp k] eqn:Ecb; cbn [runCallback].
    + left. destruct (moving _); [reflexivity|].
      now rewrite current_closeDoors.
    + left. now rewrite state_startDoorAutoCloseTimer.
    + left. destruct a as [|target]; cbn [resume]; [reflexivity|].
      now rewrite current_goToFloor_afterClose.
    + left. reflexivity.
    + right. split; [reflexivity|].
      exists tm, steps, stp, temp, k. split; [reflexivity|].
      split; [exact Ecb|].
      unfold travelTick. cbv zeta. unfold travelLoop.
      destruct (k + 1 <? steps); [reflexivity|].
      now rewrite state_arrive.
  - destruct (canHappenAt tc w); [|discriminate].
    inversion Hstep; subst w'. left. now rewrite current_runCall.
  - destruct (canHappenAt tc w); [|discriminate].
    destruct (clickTarget cfg b w) as [c|]; [|discriminate].
    inversion Hstep; subst w'. left. now rewrite current_runCall.
Qed.

Lemma car_moves_only_by_ticks_witness :
  exists w w',
    run cfg6 (init cfg6) [Fire; Click 1000 (FloorBtn 1); Fire; Fire] = Some w /\
    step cfg6 w Fire = Some w' /\
    current (state w) = 0 /\ current (state w') = 0 + 1.
Proof.
  let r := eval vm_compute in
    (run cfg6 (init cfg6) [Fire; Click 1000 (FloorBtn 1); Fire; Fire]) in
  match r with
  | Some ?w =>
      let r' := eval vm_compute in (step cfg6 w Fire) in
      match r' with
      | Some ?w' =>
          exists w, w';
          split; [vm_compute; reflexivity|];
          split; [vm_compute; reflexivity|];
          split; [reflexivity|];
          destruct (car_moves_only_by_ticks cfg6 w Fire w'
                      ltac:(vm_compute; reflexivity))
            as [H | [_ [t [steps [stp [temp [k [Hn [Hc Hw]]]]]]]]]
      end
  end.
  - vm_compute in H. discriminate H.
  - vm_compute in Hn. injection Hn as <-. simpl in Hc.
    injection Hc as <- <- <- <-. exact Hw.
Defined.
